(** * react-netlify-identity: the identity hook and its provider

    A shallow embedding of [src/index2.tsx]: the URL check of the provider,
    the hook [useNetlifyIdentity] with its state slots, memoised callbacks
    and mount effects, and the facade operations it returns.

    Conventions.
    - A JavaScript string that is matched against the URL pattern is a list
      of UTF-16 code units ([list N]); every other string is a [string].
    - [undefined] is [None].
    - The identity backend client (gotrue-js), [fetch] and the caller's
      [onAuthChange] listener are external: a call to one of them is
      recorded in the world, and what it answers is an input of the model. *)

From Stdlib Require Import NArith Ascii String.
From stdpp Require Import base option list strings gmap fin_maps.

Set Default Proof Using "Type".
Local Open Scope string_scope.
Local Open Scope list_scope.

(** ** JavaScript strings as UTF-16 code units *)

Module Js.

Abbreviation code_unit := N.
Abbreviation jsstring := (list code_unit).

Fixpoint utf16 (s : string) : jsstring :=
  match s with
  | EmptyString => []
  | String a rest => N_of_ascii a :: utf16 rest
  end.

Definition between (lo hi c : N) : bool := (lo <=? c)%N && (c <=? hi)%N.

(** The letter-case folding of a pattern compiled with the [i] flag, on
    the ASCII range; the non-ASCII members of the pattern's classes
    already form one interval, which folding maps onto characters
    outside ASCII. *)
Definition fold_case (c : N) : N :=
  if between 65 90 c then (c + 32)%N else c.

(** [\d] *)
Definition digit (c : N) : bool := between 48 57 c.

(** [\s]: WhiteSpace and LineTerminator of ECMAScript. *)
Definition space (c : N) : bool :=
  between 9 13 c || (c =? 32)%N || (c =? 160)%N || (c =? 5760)%N
  || between 8192 8202 c || (c =? 8232)%N || (c =? 8233)%N
  || (c =? 8239)%N || (c =? 8287)%N || (c =? 12288)%N || (c =? 65279)%N.

(** [\S] *)
Definition nonspace (c : N) : bool := negb (space c).

(** a literal character of the pattern, under the [i] flag *)
Definition is_char (a : ascii) (c : N) : bool :=
  (fold_case c =? fold_case (N_of_ascii a))%N.

End Js.

(** ** Regular expressions with negative lookahead

    The part of the ECMAScript pattern language that [validateUrl] uses.
    The pattern is anchored at both ends, so [test] asks whether the whole
    input is matched; backtracking explores every way to match, hence the
    answer is membership of the input in the language, which [ends]
    computes as the set of remainders. *)

Module Regex.

Import Js.

Inductive regex : Type :=
| Empty
| Class (p : N -> bool)
| Cat (r1 r2 : regex)
| Or (r1 r2 : regex)
| Many (r : regex)         (* r* *)
| NotAhead (r : regex).    (* (?!r) *)

Definition Opt (r : regex) : regex := Or r Empty.        (* r? *)
Definition Some_ (r : regex) : regex := Cat r (Many r).  (* r+ *)

(** [r{n}] *)
Fixpoint Times (n : nat) (r : regex) : regex :=
  match n with
  | O => Empty
  | S k => Cat r (Times k r)
  end.

(** [r{0,m}] *)
Fixpoint UpTo (m : nat) (r : regex) : regex :=
  match m with
  | O => Empty
  | S k => Opt (Cat r (UpTo k r))
  end.

(** [r{n,m}], for n <= m *)
Definition Range (n m : nat) (r : regex) : regex :=
  Cat (Times n r) (UpTo (m - n) r).

(** [r{n,}] *)
Definition AtLeast (n : nat) (r : regex) : regex :=
  Cat (Times n r) (Many r).

Fixpoint Lit (s : string) : regex :=
  match s with
  | EmptyString => Empty
  | String a rest => Cat (Class (is_char a)) (Lit rest)
  end.

(** All remainders reachable by repeating [step], each round consuming
    at least one code unit; [fuel] bounds the number of rounds. *)
Fixpoint repeat_step (step : jsstring -> list jsstring) (fuel : nat)
    (s : jsstring) : list jsstring :=
  s :: match fuel with
       | O => []
       | S k =>
           flat_map
             (fun s' =>
                if decide (length s' < length s)
                then repeat_step step k s' else [])
             (step s)
       end.

(** [ends r s]: every remainder [s'] such that [r] matches the prefix of
    [s] that precedes [s']. *)
Fixpoint ends (r : regex) (s : jsstring) : list jsstring :=
  match r with
  | Empty => [s]
  | Class p =>
      match s with
      | c :: rest => if p c then [rest] else []
      | [] => []
      end
  | Cat r1 r2 => remove_dups (flat_map (ends r2) (ends r1 s))
  | Or r1 r2 => remove_dups (ends r1 s ++ ends r2 s)
  | Many r1 => remove_dups (repeat_step (ends r1) (length s) s)
  | NotAhead r1 =>
      match ends r1 s with
      | [] => [s]
      | _ :: _ => []
      end
  end.

(** [/^r$/.test(s)] *)
Definition test (r : regex) (s : jsstring) : bool :=
  bool_decide ([] ∈ ends r s).

End Regex.

(** ** [validateUrl] *)

Module Url.

Import Js Regex.

Definition alnum (c : N) : bool :=
  between 97 122 (fold_case c) || between 161 65535 c || digit c.
Definition alpha (c : N) : bool :=
  between 97 122 (fold_case c) || between 161 65535 c.

Definition D : regex := Class digit.
Definition Ch (a : ascii) : regex := Class (is_char a).
Definition In_ (lo hi : ascii) : regex :=
  Class (between (N_of_ascii lo) (N_of_ascii hi)).
Definition Dot : regex := Ch ".".
Definition S_ : regex := Class nonspace.

(** [(?: (?: (?:https?|ftp) : )? \/\/ )] *)
Definition scheme : regex :=
  Cat (Opt (Cat (Or (Cat (Lit "http") (Opt (Ch "s"))) (Lit "ftp")) (Ch ":")))
      (Lit "//").

(** [(?: \S+ (?: : \S* )? @ )?] *)
Definition userinfo : regex :=
  Opt (Cat (Some_ S_) (Cat (Opt (Cat (Ch ":") (Many S_))) (Ch "@"))).

(** [(?:\.\d{1,3})] *)
Definition dot_digits : regex := Cat Dot (Range 1 3 D).

(** [(?!(?:10|127)(?:\.\d{1,3}){3})] *)
Definition not_private_a : regex :=
  NotAhead (Cat (Or (Lit "10") (Lit "127")) (Times 3 dot_digits)).

(** [(?!(?:169\.254|192\.168)(?:\.\d{1,3}){2})] *)
Definition not_private_b : regex :=
  NotAhead (Cat (Or (Lit "169.254") (Lit "192.168")) (Times 2 dot_digits)).

(** [(?!172\.(?:1[6-9]|2\d|3[0-1])(?:\.\d{1,3}){2})] *)
Definition not_private_c : regex :=
  NotAhead
    (Cat (Lit "172.")
       (Cat (Or (Cat (Ch "1") (In_ "6" "9"))
               (Or (Cat (Ch "2") D) (Cat (Ch "3") (In_ "0" "1"))))
          (Times 2 dot_digits))).

(** [(?:[1-9]\d?|1\d\d|2[01]\d|22[0-3])] *)
Definition first_octet : regex :=
  Or (Cat (In_ "1" "9") (Opt D))
    (Or (Cat (Ch "1") (Cat D D))
       (Or (Cat (Ch "2") (Cat (In_ "0" "1") D))
          (Cat (Lit "22") (In_ "0" "3")))).

(** [(?:\.(?:1?\d{1,2}|2[0-4]\d|25[0-5])){2}] *)
Definition middle_octets : regex :=
  Times 2
    (Cat Dot
       (Or (Cat (Opt (Ch "1")) (Range 1 2 D))
          (Or (Cat (Ch "2") (Cat (In_ "0" "4") D))
             (Cat (Lit "25") (In_ "0" "5"))))).

(** [(?:\.(?:[1-9]\d?|1\d\d|2[0-4]\d|25[0-4]))] *)
Definition last_octet : regex :=
  Cat Dot
    (Or (Cat (In_ "1" "9") (Opt D))
       (Or (Cat (Ch "1") (Cat D D))
          (Or (Cat (Ch "2") (Cat (In_ "0" "4") D))
             (Cat (Lit "25") (In_ "0" "4"))))).

Definition ip_address : regex :=
  Cat not_private_a
    (Cat not_private_b
       (Cat not_private_c
          (Cat first_octet (Cat middle_octets last_octet)))).

(** [(?: [a-z\u00a1-\uffff0-9] -* )* [a-z\u00a1-\uffff0-9]+] *)
Definition label : regex :=
  Cat (Many (Cat (Class alnum) (Many (Ch "-")))) (Some_ (Class alnum)).

(** host name, further labels, and the top-level domain
    [(?: \. (?: [a-z\u00a1-\uffff]{2,} ) )] *)
Definition domain_name : regex :=
  Cat label
    (Cat (Many (Cat Dot label))
       (Cat Dot (AtLeast 2 (Class alpha)))).

Definition host : regex := Or ip_address domain_name.

(** [(?::\d{2,5})?] *)
Definition port : regex := Opt (Cat (Ch ":") (Range 2 5 D)).

(** [(?: [/?#] \S* )?] *)
Definition resource : regex :=
  Opt (Cat (Class (fun c => is_char "/" c || is_char "?" c || is_char "#" c))
         (Many S_)).

Definition url_pattern : regex :=
  Cat scheme (Cat userinfo (Cat host (Cat port resource))).

Definition validateUrl (value : jsstring) : bool := test url_pattern value.

End Url.

(** ** The data model of [src/index2.tsx] *)

(** [User] of gotrue-js, as far as the hook reads it: [user.confirmed_at],
    [user.token.access_token]. Two users are the same object when they are
    equal. *)
Record Token := { access_token : string }.
Record User := {
  id : string;
  confirmed_at : option string;
  token : option Token;
}.

Record External := {
  bitbucket : bool;
  email : bool;
  facebook : bool;
  github : bool;
  gitlab : bool;
  google : bool;
}.
Record Settings := {
  autoconfirm : bool;
  disable_signup : bool;
  external : External;
}.

Definition defaultSettings : Settings := {|
  autoconfirm := false;
  disable_signup := false;
  external := {|
    bitbucket := false;
    email := true;
    facebook := false;
    github := false;
    gitlab := false;
    google := false;
  |};
|}.

Module errors.
Definition noTokenFound : Js.jsstring := Js.utf16 "no user token found".
Definition noUserFound : Js.jsstring :=
  Js.utf16 "No current user found - are you logged in?".
End errors.

Inductive FlowType := confirmation | invite | recovery | email_change | access.
Inductive ErrorName := access_denied.
(** the literal type [403] *)
Inductive Status := Forbidden.
Definition status_code (s : Status) : N := match s with Forbidden => 403%N end.

Module TokenParam.
Record t := {
  token : option string;
  type : option FlowType;
  error : option ErrorName;
  status : option Status;
}.
End TokenParam.

Definition defaultParam : TokenParam.t := {|
  TokenParam.token := None;
  TokenParam.type := None;
  TokenParam.error := None;
  TokenParam.status := None;
|}.

(** JavaScript truthiness of [string | undefined] and [object | undefined]. *)
Definition truthy_string (s : option string) : bool :=
  match s with
  | Some s => negb (String.eqb s "")
  | None => false
  end.
Definition truthy {A} (o : option A) : bool :=
  match o with Some _ => true | None => false end.

(** A plain object as the operations receive it ([data], [fields], the
    options of a fetch): own enumerable properties, by key. *)
Inductive JsValue :=
| JUndefined
| JString (s : string)
| JObject (props : gmap string string).

Abbreviation JsObject := (gmap string JsValue).

(** [Object.assign(target, src)]: the properties of [src] win. *)
Definition assign (target src : JsObject) : JsObject := src ∪ target.

Global Instance Token_eq_dec : EqDecision Token.
Proof. solve_decision. Defined.
Global Instance User_eq_dec : EqDecision User.
Proof. solve_decision. Defined.
Global Instance JsValue_eq_dec : EqDecision JsValue.
Proof. solve_decision. Defined.
Global Instance FlowType_eq_dec : EqDecision FlowType.
Proof. solve_decision. Defined.

(** The page location as the browser exposes it: the path, the parameters
    of the query string and those of the fragment, in order. *)
Record Location := {
  path : string;
  query : list (string * string);
  fragment : list (string * string);
}.

(** ** The outside world: backend client, network, listener *)

Record Response := { body : string }.

(** Every call the hook makes on the identity backend client
    ([goTrueInstance.*], [user.*]) or on [fetch]. *)
Inductive Call :=
| gotrue_signup (email password : string) (data : JsObject)
| gotrue_login (email password : string) (remember : bool)
| gotrue_requestPasswordRecovery (email : string)
| gotrue_recover (token : string) (remember : option bool)
| gotrue_settings
| gotrue_confirm (token : string)
| gotrue_createUser (params : list (string * string))
| user_update (u : User) (fields : JsObject)
| user_jwt (u : User)
| user_logout (u : User)
| fetch (endpoint : string) (init : JsObject).

(** What the promise of a call resolves to. *)
Definition Resp (c : Call) : Type :=
  match c with
  | gotrue_signup _ _ _ | gotrue_login _ _ _ | gotrue_recover _ _
  | gotrue_confirm _ | gotrue_createUser _ | user_update _ _ => User
  | gotrue_requestPasswordRecovery _ | user_logout _ => unit
  | gotrue_settings => Settings
  | user_jwt _ => string
  | fetch _ _ => Response
  end.

(** The memo cells of the hook: the dependency array a callback was
    created with, and the [user] of the render whose closure it holds. *)
Record Hooks := {
  user : option User;                 (* useState *)
  param : TokenParam.t;               (* useState *)
  settings : Settings;                (* useState *)
  cb_updateUser : option User * option User;   (* useCallback, [user] *)
  cb_getFreshJWT : option User * option User;  (* useCallback, [user] *)
  cb_logoutUser : option User * option User;   (* useCallback, [user] *)
  memo_authedFetch : unit * option User;       (* useMemo, [] *)
  effect_runRoutes : bool;            (* useEffect, []: has it run *)
  effect_settings : bool;             (* useEffect, []: has it run *)
}.

Record World := {
  session : option User;         (* goTrueInstance.currentUser() *)
  location : Location;           (* the visible page location *)
  calls : list Call;             (* calls made so far, oldest first *)
  notified : list (option User); (* arguments onAuthChange was called with *)
  hooks : option Hooks;          (* None until the first render *)
}.

(** ** Synchronous code: state and exceptions *)

Inductive Outcome (A : Type) :=
| Returned (a : A)
| Threw (message : Js.jsstring).
Arguments Returned {A} a.
Arguments Threw {A} message.

Definition Eff (A : Type) : Type := World -> Outcome A * World.

Definition ret {A} (a : A) : Eff A := fun w => (Returned a, w).
Definition throw {A} (message : Js.jsstring) : Eff A := fun w => (Threw message, w).
Definition bind {A B} (e : Eff A) (k : A -> Eff B) : Eff B :=
  fun w =>
    match e w with
    | (Returned a, w') => k a w'
    | (Threw m, w') => (Threw m, w')
    end.

Notation "'do' x <- e ; k" := (bind e (fun x => k))
  (at level 10, x name, e at level 100, k at level 200).
Notation "'run' e ; k" := (bind e (fun _ => k))
  (at level 10, e at level 100, k at level 200).

(** ** Promises

    A promise made from a call: the call awaited and what runs when it
    is fulfilled with an answer of type [X]. A rejection skips the
    reactions. *)
Record Promise (X A : Type) := {
  awaiting : Call;
  on_fulfilled : X -> Eff A;
}.
Arguments awaiting {X A} _.
Arguments on_fulfilled {X A} _ _.

Definition call (c : Call) : Eff (Promise (Resp c) (Resp c)) :=
  fun w =>
    (Returned {| awaiting := c; on_fulfilled := ret |},
     {| session := session w; location := location w;
        calls := calls w ++ [c];
        notified := notified w; hooks := hooks w |}).

(** [p.then(f)] *)
Definition then_ {X A B} (p : Promise X A) (f : A -> Eff B) : Promise X B :=
  {| awaiting := awaiting p;
     on_fulfilled := fun x => do a <- on_fulfilled p x; f a |}.

Inductive Settlement (X : Type) :=
| Fulfilled (x : X)
| Rejected (reason : Js.jsstring).
Arguments Fulfilled {X} x.
Arguments Rejected {X} reason.

Definition settle {X A} (p : Promise X A) (s : Settlement X) : Eff A :=
  match s with
  | Fulfilled x => on_fulfilled p x
  | Rejected reason => throw reason
  end.

Definition with_hooks (w : World) (h : option Hooks) : World :=
  {| session := session w; location := location w; calls := calls w;
     notified := notified w; hooks := h |}.

Definition modify_hooks (f : Hooks -> Hooks) : Eff unit :=
  fun w => (Returned tt, with_hooks w (f <$> hooks w)).

(** ** The state setters of the hook *)

(** [setUser], the setter of the [user] slot *)
Definition setUser (u : option User) : Eff unit :=
  modify_hooks (fun h =>
    {| user := u; param := param h; settings := settings h;
       cb_updateUser := cb_updateUser h; cb_getFreshJWT := cb_getFreshJWT h;
       cb_logoutUser := cb_logoutUser h;
       memo_authedFetch := memo_authedFetch h;
       effect_runRoutes := effect_runRoutes h;
       effect_settings := effect_settings h |}).

Definition setParam (p : TokenParam.t) : Eff unit :=
  modify_hooks (fun h =>
    {| user := user h; param := p; settings := settings h;
       cb_updateUser := cb_updateUser h; cb_getFreshJWT := cb_getFreshJWT h;
       cb_logoutUser := cb_logoutUser h;
       memo_authedFetch := memo_authedFetch h;
       effect_runRoutes := effect_runRoutes h;
       effect_settings := effect_settings h |}).

Definition setSettings (s : Settings) : Eff unit :=
  modify_hooks (fun h =>
    {| user := user h; param := param h; settings := s;
       cb_updateUser := cb_updateUser h; cb_getFreshJWT := cb_getFreshJWT h;
       cb_logoutUser := cb_logoutUser h;
       memo_authedFetch := memo_authedFetch h;
       effect_runRoutes := effect_runRoutes h;
       effect_settings := effect_settings h |}).

(** the caller's listener: the call is recorded *)
Definition onAuthChange (u : option User) : Eff unit :=
  fun w =>
    (Returned tt,
     {| session := session w; location := location w; calls := calls w;
        notified := notified w ++ [u]; hooks := hooks w |}).

Definition _setUser (_user : option User) : Eff (option User) :=
  run setUser _user;
  run onAuthChange _user;
  ret _user.

(** ** The operations

    Each takes, before its own arguments, the variables of the render
    that its closure holds. *)

Definition signupUser (email password : string) (data : JsObject)
  : Eff (Promise User (option User)) :=
  do p <- call (gotrue_signup email password data);
  ret (then_ p (fun u => _setUser (Some u))).

Definition loginUser (email password : string) (remember : option bool)
  : Eff (Promise User (option User)) :=
  do p <- call (gotrue_login email password (default true remember));
  ret (then_ p (fun u => _setUser (Some u))).

Definition requestPasswordRecovery (email : string)
  : Eff (Promise unit unit) :=
  call (gotrue_requestPasswordRecovery email).

Definition recoverAccount (token : string) (remember : option bool)
  : Eff (Promise User User) :=
  call (gotrue_recover token remember).

Definition updateUser (user : option User) (fields : JsObject)
  : Eff (Promise User (option User)) :=
  match user with
  | None => throw errors.noUserFound
  | Some u =>
      do p <- call (user_update u fields);
      ret (then_ p (fun u' => _setUser (Some u')))
  end.

Definition getFreshJWT (user : option User) : Eff (Promise string string) :=
  match user with
  | None => throw errors.noUserFound
  | Some u => call (user_jwt u)
  end.

Definition logoutUser (user : option User)
  : Eff (Promise unit (option User)) :=
  match user with
  | None => throw errors.noUserFound
  | Some u =>
      do p <- call (user_logout u);
      ret (then_ p (fun _ => _setUser None))
  end.

(** [user.token.access_token] when [user], [user.token] and the token
    string are all truthy *)
Definition live_access_token (user : option User) : option string :=
  match user with
  | None => None
  | Some u =>
      match token u with
      | None => None
      | Some t =>
          if String.eqb (access_token t) "" then None
          else Some (access_token t)
      end
  end.

Definition defaultObj (access_token : string) : JsObject :=
  {[ "headers" :=
       JObject (list_to_map
         [ ("Accept", "application/json");
           ("Content-Type", "application/json");
           ("Authorization", "Bearer " +:+ access_token) ]) ]}.

(** [Object.assign(defaultObj, { method }, obj)] *)
Definition finalObj (access_token method : string) (obj : JsObject) : JsObject :=
  assign (assign (defaultObj access_token) {[ "method" := JString method ]}) obj.

Inductive FetchResult :=
| json_of (res : Response)   (* res.json() *)
| response (res : Response). (* res *)

Definition genericAuthedFetch (user : option User) (method : string)
    (endpoint : string) (obj : JsObject)
  : Eff (Promise Response FetchResult) :=
  match live_access_token user with
  | None => throw errors.noTokenFound
  | Some tk =>
      let finalObj := finalObj tk method obj in
      do p <- call (fetch endpoint finalObj);
      ret (then_ p (fun res =>
        match finalObj !! "headers" with
        | Some (JObject headers) =>
            if decide (headers !! "Content-Type" = Some "application/json")
            then ret (json_of res) else ret (response res)
        | Some (JString _) => ret (response res)
        | Some JUndefined | None =>
            throw (Js.utf16 "TypeError: Cannot read property 'Content-Type' of undefined")
        end))
  end.

Module AuthedFetch.
Record t := {
  get : string -> JsObject -> Eff (Promise Response FetchResult);
  post : string -> JsObject -> Eff (Promise Response FetchResult);
  put : string -> JsObject -> Eff (Promise Response FetchResult);
  delete : string -> JsObject -> Eff (Promise Response FetchResult);
}.
End AuthedFetch.

Module API.
Record t := {
  user : option User;
  setUser : option User -> Eff unit;
  isConfirmedUser : bool;
  isLoggedIn : bool;
  signupUser : string -> string -> JsObject -> Eff (Promise User (option User));
  loginUser : string -> string -> option bool -> Eff (Promise User (option User));
  logoutUser : Eff (Promise unit (option User));
  requestPasswordRecovery : string -> Eff (Promise unit unit);
  recoverAccount : string -> option bool -> Eff (Promise User User);
  updateUser : JsObject -> Eff (Promise User (option User));
  getFreshJWT : Eff (Promise string string);
  authedFetch : AuthedFetch.t;
  _url : Js.jsstring;
  settings : Settings;
  param : TokenParam.t;
}.
End API.

(** ** Rendering: [useState], [useCallback], [useMemo] *)

(** [useCallback(fn, deps)] and [useMemo(() => v, deps)] on a later
    render: the cell is kept when the dependencies are the ones it was
    created with, and replaced by this render's value otherwise. *)
Definition useMemo {D E : Type} `{EqDecision D}
    (cell : D * E) (deps : D) (create : E) : D * E :=
  if decide (cell.1 = deps) then cell else (deps, create).

(** The first render: [useState] takes its initial values and every cell
    is created from them. *)
Definition first_render (currentUser : option User) : Hooks :=
  let user := currentUser in
  {| user := user; param := defaultParam; settings := defaultSettings;
     cb_updateUser := (user, user);
     cb_getFreshJWT := (user, user);
     cb_logoutUser := (user, user);
     memo_authedFetch := (tt, user);
     effect_runRoutes := false;
     effect_settings := false |}.

Definition rerender (h : Hooks) : Hooks :=
  {| user := user h; param := param h; settings := settings h;
     cb_updateUser := useMemo (cb_updateUser h) (user h) (user h);
     cb_getFreshJWT := useMemo (cb_getFreshJWT h) (user h) (user h);
     cb_logoutUser := useMemo (cb_logoutUser h) (user h) (user h);
     memo_authedFetch := useMemo (memo_authedFetch h) tt (user h);
     effect_runRoutes := effect_runRoutes h;
     effect_settings := effect_settings h |}.

Definition render (w : World) : Hooks :=
  match hooks w with
  | None => first_render (session w)
  | Some h => rerender h
  end.

(** [isConfirmedUser: !!(user && user.confirmed_at)] *)
Definition isConfirmedUser (user : option User) : bool :=
  match user with
  | Some u => truthy_string (confirmed_at u)
  | None => false
  end.

(** [isLoggedIn: !!user] *)
Definition isLoggedIn (user : option User) : bool := truthy user.

(** The value the hook returns, from the cells of this render. *)
Definition hook_api (url : Js.jsstring) (h : Hooks) : API.t :=
  let fetch_user := (memo_authedFetch h).2 in
  {| API.user := user h;
     API.setUser := setUser;
     API.isConfirmedUser := isConfirmedUser (user h);
     API.isLoggedIn := isLoggedIn (user h);
     API.signupUser := signupUser;
     API.loginUser := loginUser;
     API.logoutUser := logoutUser (cb_logoutUser h).2;
     API.requestPasswordRecovery := requestPasswordRecovery;
     API.recoverAccount := recoverAccount;
     API.updateUser := updateUser (cb_updateUser h).2;
     API.getFreshJWT := getFreshJWT (cb_getFreshJWT h).2;
     API.authedFetch :=
       {| AuthedFetch.get := genericAuthedFetch fetch_user "GET";
          AuthedFetch.post := genericAuthedFetch fetch_user "POST";
          AuthedFetch.put := genericAuthedFetch fetch_user "PUT";
          AuthedFetch.delete := genericAuthedFetch fetch_user "DELETE" |};
     API._url := url;
     API.settings := settings h;
     API.param := param h |}.

(** The promises the mount effects leave pending. *)
Record Pending := {
  routes_promise : option (Promise User (option User));
  settings_promise : option (Promise Settings unit);
}.

Definition mark_runRoutes : Eff unit :=
  modify_hooks (fun h =>
    {| user := user h; param := param h; settings := settings h;
       cb_updateUser := cb_updateUser h; cb_getFreshJWT := cb_getFreshJWT h;
       cb_logoutUser := cb_logoutUser h;
       memo_authedFetch := memo_authedFetch h;
       effect_runRoutes := true;
       effect_settings := effect_settings h |}).

Definition mark_settings : Eff unit :=
  modify_hooks (fun h =>
    {| user := user h; param := param h; settings := settings h;
       cb_updateUser := cb_updateUser h; cb_getFreshJWT := cb_getFreshJWT h;
       cb_logoutUser := cb_logoutUser h;
       memo_authedFetch := memo_authedFetch h;
       effect_runRoutes := effect_runRoutes h;
       effect_settings := true |}).

Definition effect_due (flag : Hooks -> bool) (w : World) : bool :=
  match hooks w with
  | Some h => negb (flag h)
  | None => false
  end.

Section Hook.

(** [import { runRoutes } from './runRoutes']: called with the state
    setter, it answers a [TokenParam] and may leave a promise pending. *)
Variable runRoutes :
  (option User -> Eff (option User)) ->
  Eff (TokenParam.t * option (Promise User (option User))).

(** [useEffect(() => { if (enableRunRoutes) {...} }, [])] *)
Definition runRoutes_effect (enableRunRoutes : bool)
  : Eff (option (Promise User (option User))) :=
  fun w =>
    if effect_due effect_runRoutes w then
      (run mark_runRoutes;
       if enableRunRoutes then
         do r <- runRoutes _setUser;
         let param := r.1 in
         run (if truthy_string (TokenParam.token param)
                 || truthy (TokenParam.error param)
              then setParam param else ret tt);
         ret r.2
       else ret None) w
    else (Returned None, w).

(** [useEffect(() => { _settings().then(setSettings) }, [])] *)
Definition settings_effect : Eff (option (Promise Settings unit)) :=
  fun w =>
    if effect_due effect_settings w then
      (run mark_settings;
       do p <- call gotrue_settings;
       ret (Some (then_ p setSettings))) w
    else (Returned None, w).

(** One render of the hook followed by the effects that are due. *)
Definition useNetlifyIdentity (url : Js.jsstring) (enableRunRoutes : bool)
  : Eff (API.t * Pending) :=
  fun w =>
    let h := render w in
    (do routes <- runRoutes_effect enableRunRoutes;
     do fetched <- settings_effect;
     ret (hook_api url h,
          {| routes_promise := routes; settings_promise := fetched |}))
      (with_hooks w (Some h)).

Definition invalid_url_message (url : Js.jsstring) : Js.jsstring :=
  (Js.utf16 "invalid netlify instance URL: " ++ url
   ++ Js.utf16 ". Please check the docs for proper usage or file an issue.")%list.

(** [if (!url || !validateUrl(url)) throw ...] *)
Definition IdentityContextProvider (url : Js.jsstring)
  : Eff (API.t * Pending) :=
  if bool_decide (url = []) || negb (Url.validateUrl url)
  then throw (invalid_url_message url)
  else useNetlifyIdentity url true.

End Hook.

(** ** The flow router *)

Module RunRoutes.

(** Modelled from the spec: the module [./runRoutes] (URL/token parser
    and flow router, sections 4.1 and 4.2) is imported by [index2.tsx]
    but is not among the sources. The specification leaves open which
    signal wins when a location carries both a flow marker and an error
    marker (section 9); the choice is a parameter of the parser. *)
Inductive Precedence := flow_first | error_first.

(** Modelled from the spec: the flow types a [type] marker can name
    (section 3). *)
Definition flow_of_name (name : string) : option FlowType :=
  if String.eqb name "confirmation" then Some confirmation
  else if String.eqb name "invite" then Some invite
  else if String.eqb name "recovery" then Some recovery
  else if String.eqb name "email_change" then Some email_change
  else if String.eqb name "access" then Some access
  else None.

(** Modelled from the spec: the [type] marker of the fragment; with
    several, the first recognised flow type wins. *)
Fixpoint find_flow (params : list (string * string)) : option FlowType :=
  match params with
  | [] => None
  | (k, v) :: rest =>
      if String.eqb k "type" then
        match flow_of_name v with
        | Some f => Some f
        | None => find_flow rest
        end
      else find_flow rest
  end.

(** Modelled from the spec: the first parameter with a given key. *)
Fixpoint lookup_param (key : string) (params : list (string * string))
  : option string :=
  match params with
  | [] => None
  | (k, v) :: rest => if String.eqb k key then Some v else lookup_param key rest
  end.

(** Modelled from the spec: a fragment containing an access token plus
    a [type] marker. *)
Definition flow_signal (loc : Location) : option (FlowType * string) :=
  match find_flow (fragment loc), lookup_param "access_token" (fragment loc) with
  | Some f, Some tk => Some (f, tk)
  | _, _ => None
  end.

(** Modelled from the spec: a query parameter carrying
    [error=access_denied]. *)
Definition error_signal (loc : Location) : bool :=
  bool_decide (("error", "access_denied") ∈ query loc).

(** Modelled from the spec: the [TokenParam] of a recognised flow;
    [type] and [token] are produced together (section 3). *)
Definition flow_param (f : FlowType) (tk : string) : TokenParam.t :=
  {| TokenParam.token := Some tk; TokenParam.type := Some f;
     TokenParam.error := None; TokenParam.status := None |}.

(** Modelled from the spec: the [TokenParam] of a rejected social login,
    [{type: undefined, error: "access_denied", status: 403}] (section
    8). *)
Definition denied_param : TokenParam.t :=
  {| TokenParam.token := None; TokenParam.type := None;
     TokenParam.error := Some access_denied;
     TokenParam.status := Some Forbidden |}.

(** Modelled from the spec: the URL/token parser (4.1). Which signal
    wins when a location carries both is left open by the spec, so it is
    a parameter. *)
Definition parse (prec : Precedence) (loc : Location) : TokenParam.t :=
  match prec, flow_signal loc, error_signal loc with
  | flow_first, Some (f, tk), _ => flow_param f tk
  | flow_first, None, true => denied_param
  | error_first, _, true => denied_param
  | error_first, Some (f, tk), false => flow_param f tk
  | _, None, false => defaultParam
  end.

(** Modelled from the spec: the keys of the parameters the parser
    reads. *)
Definition marker (key : string) : bool :=
  String.eqb key "type" || String.eqb key "access_token"
  || String.eqb key "error" || String.eqb key "error_description".

(** Modelled from the spec: the consumed parameters are removed from
    the visible location (4.2, step 3). *)
Definition strip (loc : Location) : Location :=
  {| path := path loc;
     query := List.filter (fun kv => negb (marker kv.1)) (query loc);
     fragment := List.filter (fun kv => negb (marker kv.1)) (fragment loc) |}.

(** Modelled from the spec: read and write access to the visible
    location (section 6). *)
Definition read_location : Eff Location :=
  fun w => (Returned (location w), w).

(** Modelled from the spec: the write replaces the visible location and
    nothing else. *)
Definition write_location (loc : Location) : Eff unit :=
  fun w =>
    (Returned tt,
     {| session := session w; location := loc; calls := calls w;
        notified := notified w; hooks := hooks w |}).

(** Modelled from the spec: the dispatch of the flow router (4.2, step
    2). Confirmation, invite and email change go to the backend's
    token-confirmation entry point; for an access flow the backend reads
    the fragment itself; a recovery token is only surfaced; an error is
    only retained. The resulting user is fed to the state-update
    callback. *)
Definition dispatch (setUser : option User -> Eff (option User))
    (loc : Location) (param : TokenParam.t)
  : Eff (option (Promise User (option User))) :=
  match TokenParam.type param, TokenParam.token param with
  | Some confirmation, Some tk
  | Some invite, Some tk
  | Some email_change, Some tk =>
      do p <- call (gotrue_confirm tk);
      ret (Some (then_ (p : Promise User User) (fun u => setUser (Some u))))
  | Some access, Some _ =>
      do p <- call (gotrue_createUser (fragment loc));
      ret (Some (then_ (p : Promise User User) (fun u => setUser (Some u))))
  | _, _ => ret None
  end.

(** Modelled from the spec: the flow router (4.2), steps 1 to 4. *)
Definition runRoutes (prec : Precedence)
    (setUser : option User -> Eff (option User))
  : Eff (TokenParam.t * option (Promise User (option User))) :=
  do loc <- read_location;
  let param := parse prec loc in
  do pending <- dispatch setUser loc param;
  run write_location (strip loc);
  ret (param, pending).

(** Modelled from the spec: a location string read as path, query
    string and fragment (4.1). The fragment follows the first [#], the
    query string the first [?] before it; parameters are separated by
    [&], a key from its value by the first [=]. *)
Fixpoint split_first (sep : ascii) (s : string) : string * option string :=
  match s with
  | EmptyString => (EmptyString, None)
  | String c rest =>
      if Ascii.eqb c sep then (EmptyString, Some rest)
      else let r := split_first sep rest in (String c r.1, r.2)
  end.

(** Modelled from the spec: the segments between separators. *)
Fixpoint split_all (sep : ascii) (s : string) : list string :=
  match s with
  | EmptyString => [EmptyString]
  | String c rest =>
      if Ascii.eqb c sep then EmptyString :: split_all sep rest
      else
        match split_all sep rest with
        | [] => [String c EmptyString]
        | seg :: segs => String c seg :: segs
        end
  end.

(** Modelled from the spec: the parameters of a query string or of a
    fragment, in order. *)
Definition params_of (s : option string) : list (string * string) :=
  match s with
  | None => []
  | Some s =>
      List.map (fun seg => let r := split_first "=" seg in (r.1, default "" r.2))
        (split_all "&" s)
  end.

(** Modelled from the spec: the location a string denotes. *)
Definition of_href (href : string) : Location :=
  let r := split_first "#" href in
  let q := split_first "?" r.1 in
  {| path := q.1; query := params_of q.2; fragment := params_of r.2 |}.

End RunRoutes.

(** ** Worlds *)

(** The world before the component is mounted. *)
Definition initial_world (currentUser : option User) (loc : Location) : World :=
  {| session := currentUser; location := loc; calls := [];
     notified := []; hooks := None |}.

(** A mounted hook: both mount effects have run, and each callback keyed
    on [user] holds the [user] it was created with. *)
Definition mounted (h : Hooks) : Prop :=
  (cb_updateUser h).2 = (cb_updateUser h).1 /\
  (cb_getFreshJWT h).2 = (cb_getFreshJWT h).1 /\
  (cb_logoutUser h).2 = (cb_logoutUser h).1 /\
  effect_runRoutes h = true /\
  effect_settings h = true.

Definition wf (w : World) : Prop :=
  forall h, hooks w = Some h -> mounted h.

(** The life of a component: it renders (the first time with its mount
    effects), its operations call the backend, and fulfilled promises or
    the consumer set the state. *)
Inductive step (prec : RunRoutes.Precedence) (url : Js.jsstring)
    (enableRunRoutes : bool) : World -> World -> Prop :=
| step_render w :
    step prec url enableRunRoutes w
      (useNetlifyIdentity (RunRoutes.runRoutes prec) url enableRunRoutes w).2
| step_call c w :
    step prec url enableRunRoutes w (call c w).2
| step__setUser v w :
    step prec url enableRunRoutes w (_setUser v w).2
| step_setUser v w :
    step prec url enableRunRoutes w (setUser v w).2
| step_setSettings v w :
    step prec url enableRunRoutes w (setSettings v w).2.

Definition reachable (prec : RunRoutes.Precedence) (url : Js.jsstring)
    (enableRunRoutes : bool) (w : World) : Prop :=
  exists currentUser loc,
    rtc (step prec url enableRunRoutes) (initial_world currentUser loc) w.

(** The world once a render is committed: the hook holds the cells of
    that render. *)
Definition commit (w : World) : World := with_hooks w (Some (render w)).

(** The user slot, when the hook has state. *)
Definition user_slot (w : World) : option (option User) :=
  user <$> hooks w.

(** The calls a run of the router issues, and the promise it leaves. *)
Definition routed_calls (loc : Location) (param : TokenParam.t) : list Call :=
  match TokenParam.type param, TokenParam.token param with
  | Some confirmation, Some tk
  | Some invite, Some tk
  | Some email_change, Some tk => [gotrue_confirm tk]
  | Some access, Some _ => [gotrue_createUser (fragment loc)]
  | _, _ => []
  end.


Definition is_settings (c : Call) : bool :=
  match c with gotrue_settings => true | _ => false end.

(** The [TokenParam] the mount effect stores: the router's answer when it
    carries a token or an error, the default otherwise. *)
Definition stored_param (enableRunRoutes : bool) (answer : TokenParam.t)
  : TokenParam.t :=
  if enableRunRoutes
     && (truthy_string (TokenParam.token answer)
         || truthy (TokenParam.error answer))
  then answer else defaultParam.

(** The hook state once the first render and its effects are done. *)
Definition after_mount (currentUser : option User) (p : TokenParam.t) : Hooks :=
  {| user := currentUser; param := p; settings := defaultSettings;
     cb_updateUser := (currentUser, currentUser);
     cb_getFreshJWT := (currentUser, currentUser);
     cb_logoutUser := (currentUser, currentUser);
     memo_authedFetch := (tt, currentUser);
     effect_runRoutes := true;
     effect_settings := true |}.

(** The four verbs of [authedFetch]. *)
Inductive Verb := GET | POST | PUT | DELETE.

Definition method_of (v : Verb) : string :=
  match v with
  | GET => "GET" | POST => "POST" | PUT => "PUT" | DELETE => "DELETE"
  end.

Definition send (v : Verb) (f : AuthedFetch.t)
  : string -> JsObject -> Eff (Promise Response FetchResult) :=
  match v with
  | GET => AuthedFetch.get f
  | POST => AuthedFetch.post f
  | PUT => AuthedFetch.put f
  | DELETE => AuthedFetch.delete f
  end.

(** The options of a request carry the bearer token and the JSON content
    type. *)
Definition bearer_json_headers (init : JsObject) (access_token : string) : Prop :=
  exists headers : gmap string string,
    init !! "headers" = Some (JObject headers) /\
    headers !! "Authorization" = Some ("Bearer " +:+ access_token) /\
    headers !! "Content-Type" = Some "application/json".



(** A location without a recognised flow marker in its fragment: no
    [type] parameter names a flow, or there is no access token. *)
Definition no_flow_marker (loc : Location) : Prop :=
  (forall v, ("type", v) ∈ fragment loc -> RunRoutes.flow_of_name v = None)
  \/ (forall v, ("access_token", v) ∉ fragment loc).

(** Sample data for closed statements. *)
Definition alice : User :=
  {| id := "alice"; confirmed_at := Some "2019-04-28T21:25:21Z";
     token := Some {| access_token := "eyJhbGciOi" |} |}.

Definition home : Location := {| path := "/"; query := []; fragment := [] |}.

Definition site : Js.jsstring := Js.utf16 "https://example.netlify.com".

(** Two sessions of a page, written in the monad. *)

(** A visitor without a session logs in, the backend answers with
    [alice], the component renders again, and a fetch is attempted. *)
Definition login_then_fetch : Eff (Promise Response FetchResult) :=
  do r0 <- useNetlifyIdentity (RunRoutes.runRoutes RunRoutes.error_first) site true;
  do p <- API.loginUser r0.1 "alice@example.com" "secret" None;
  run settle p (Fulfilled alice);
  do r1 <- useNetlifyIdentity (RunRoutes.runRoutes RunRoutes.error_first) site true;
  AuthedFetch.get (API.authedFetch r1.1) "/api/items" ∅.

(** A visitor without a session recovers an account, the backend answers
    with [alice], and the component renders again. *)
Definition recover_then_render : Eff API.t :=
  do r0 <- useNetlifyIdentity (RunRoutes.runRoutes RunRoutes.error_first) site true;
  do p <- API.recoverAccount r0.1 "recovery-token" None;
  run settle p (Fulfilled alice);
  do r1 <- useNetlifyIdentity (RunRoutes.runRoutes RunRoutes.error_first) site true;
  ret r1.1.

(** ** More of the pattern language and of the hook's life *)

(** The rounds of [r*]: none, or one round that consumes something and
    then further rounds. *)
Inductive rounds (step : Js.jsstring -> list Js.jsstring)
  : Js.jsstring -> Js.jsstring -> Prop :=
| rounds_stop s : rounds step s s
| rounds_more s m s' :
    m ∈ step s -> length m < length s -> rounds step m s' ->
    rounds step s s'.

(** Every character class through which [r] consumes input accepts only
    code units with [P]; a lookahead consumes nothing. *)
Fixpoint consumes_within (P : N -> Prop) (r : Regex.regex) : Prop :=
  match r with
  | Regex.Empty => True
  | Regex.Class p => forall c, p c = true -> P c
  | Regex.Cat r1 r2 | Regex.Or r1 r2 =>
      consumes_within P r1 /\ consumes_within P r2
  | Regex.Many r1 => consumes_within P r1
  | Regex.NotAhead _ => True
  end.

(** Every character class of [r], lookaheads included, gives the same
    answer on a code unit and on its case-folded form. *)
Fixpoint ignores_case (r : Regex.regex) : Prop :=
  match r with
  | Regex.Empty => True
  | Regex.Class p => forall c, p (Js.fold_case c) = p c
  | Regex.Cat r1 r2 | Regex.Or r1 r2 => ignores_case r1 /\ ignores_case r2
  | Regex.Many r1 | Regex.NotAhead r1 => ignores_case r1
  end.

(** Tab, line feed, vertical tab, form feed, carriage return, space and
    no-break space. *)
Definition blank (c : N) : bool :=
  Js.between 9 13 c || (c =? 32)%N || (c =? 160)%N.

(** [n] renders in a row. *)
Fixpoint renders
    (rr : (option User -> Eff (option User)) ->
          Eff (TokenParam.t * option (Promise User (option User))))
    (url : Js.jsstring) (enableRunRoutes : bool) (n : nat) (w : World)
  : World :=
  match n with
  | O => w
  | S k =>
      renders rr url enableRunRoutes k
        (useNetlifyIdentity rr url enableRunRoutes w).2
  end.

(** A router that answers at once and touches nothing, as a test double
    would. *)
Definition stub_router (answer : TokenParam.t)
    (pending : option (Promise User (option User)))
  : (option User -> Eff (option User)) ->
    Eff (TokenParam.t * option (Promise User (option User))) :=
  fun _ => ret (answer, pending).

(** A router that leaves the hook state, the listener and the persisted
    session alone while it runs; it may call the backend, rewrite the
    location and leave a promise. *)
Definition quiet_router
    (rr : (option User -> Eff (option User)) ->
          Eff (TokenParam.t * option (Promise User (option User)))) : Prop :=
  forall k w, exists r w',
    rr k w = (Returned r, w') /\
    hooks w' = hooks w /\ notified w' = notified w /\ session w' = session w.

(** The life of a component whose consumers leave the raw [setUser]
    alone: renders, backend calls, and settlements that reach [_setUser]
    (signup, login, update, logout, a routed token) or [setSettings];
    a promise exists only once the hook is mounted. *)
Inductive event
    (rr : (option User -> Eff (option User)) ->
          Eff (TokenParam.t * option (Promise User (option User))))
    (url : Js.jsstring) (enableRunRoutes : bool) : World -> World -> Prop :=
| event_render w :
    event rr url enableRunRoutes w
      (useNetlifyIdentity rr url enableRunRoutes w).2
| event_call c w :
    event rr url enableRunRoutes w (call c w).2
| event_user v w h :
    hooks w = Some h ->
    event rr url enableRunRoutes w (_setUser v w).2
| event_settings v w :
    event rr url enableRunRoutes w (setSettings v w).2.

(** The value the listener heard last, or the persisted session when it
    has heard nothing. *)
Definition last_told (w : World) : option User :=
  default (session w) (last (notified w)).



(** ** Facts: the state setter *)

Lemma _setUser_run v w :
  _setUser v w =
  (Returned v,
   {| session := session w; location := location w; calls := calls w;
      notified := notified w ++ [v];
      hooks := (fun h =>
        {| user := v; param := param h; settings := settings h;
           cb_updateUser := cb_updateUser h;
           cb_getFreshJWT := cb_getFreshJWT h;
           cb_logoutUser := cb_logoutUser h;
           memo_authedFetch := memo_authedFetch h;
           effect_runRoutes := effect_runRoutes h;
           effect_settings := effect_settings h |}) <$> hooks w |}).
Proof. reflexivity. Qed.

(** The setter updates the held value, tells the listener once, with the
    new value, and returns that value. *)
Lemma _setUser_spec v w h :
  hooks w = Some h ->
  exists w' h',
    _setUser v w = (Returned v, w') /\
    hooks w' = Some h' /\ user h' = v /\
    notified w' = notified w ++ [v] /\
    calls w' = calls w /\
    param h' = param h /\ settings h' = settings h.
Proof.
  intros Hh. rewrite _setUser_run, Hh. simpl.
  eexists _, _. repeat split; reflexivity.
Qed.

Lemma _setUser_keeps_wf v w : wf w -> wf (_setUser v w).2.
Proof.
  intros Hw h'. rewrite _setUser_run. simpl.
  destruct (hooks w) as [h|] eqn:Hh; simpl; [|discriminate].
  intros [= <-]. exact (Hw h Hh).
Qed.

(** ** Facts: rendering *)

Lemma useMemo_same {D : Type} `{EqDecision D} (cell : D * D) (d : D) :
  cell.2 = cell.1 ->
  useMemo cell d d = (d, d).
Proof.
  intros Hc. unfold useMemo. destruct cell as [a b]; simpl in *; subst b.
  destruct (decide (a = d)); congruence.
Qed.

Lemma first_render_mounted_cells s :
  (cb_updateUser (first_render s)).2 = s /\
  (cb_getFreshJWT (first_render s)).2 = s /\
  (cb_logoutUser (first_render s)).2 = s /\
  (memo_authedFetch (first_render s)).2 = s.
Proof. repeat split. Qed.

(** After a render, the callbacks keyed on [user] hold the current
    user. *)
Lemma render_callbacks_current w :
  wf w ->
  let h := render w in
  cb_updateUser h = (user h, user h) /\
  cb_getFreshJWT h = (user h, user h) /\
  cb_logoutUser h = (user h, user h).
Proof.
  intros Hw. unfold render.
  destruct (hooks w) as [h|] eqn:Hh; simpl.
  - destruct (Hw h Hh) as (H1 & H2 & H3 & _).
    rewrite !useMemo_same by assumption. auto.
  - auto.
Qed.

(** The memoised [authedFetch] is never recreated: after the first
    render it holds the [user] of that render. *)
Lemma rerender_keeps_authedFetch h :
  memo_authedFetch (rerender h) = memo_authedFetch h.
Proof.
  unfold rerender, useMemo; simpl.
  destruct (memo_authedFetch h) as [[] u]; simpl.
  destruct (decide (tt = tt)); congruence.
Qed.

Section HookFacts.

Variable runRoutes :
  (option User -> Eff (option User)) ->
  Eff (TokenParam.t * option (Promise User (option User))).

(** A later render runs no effect: it only refreshes the cells. *)
Lemma useNetlifyIdentity_rerender url enable w h :
  hooks w = Some h -> mounted h ->
  useNetlifyIdentity runRoutes url enable w =
  (Returned (hook_api url (rerender h),
             {| routes_promise := None; settings_promise := None |}),
   with_hooks w (Some (rerender h))).
Proof.
  intros Hh (_ & _ & _ & Hr & Hs).
  unfold useNetlifyIdentity, render. rewrite Hh.
  unfold bind, runRoutes_effect, settings_effect, effect_due; simpl.
  rewrite Hr. simpl. rewrite Hs. reflexivity.
Qed.

End HookFacts.

Lemma useNetlifyIdentity_api
    (rr : (option User -> Eff (option User)) ->
          Eff (TokenParam.t * option (Promise User (option User))))
    url enable w api pend w' :
  useNetlifyIdentity rr url enable w = (Returned (api, pend), w') ->
  api = hook_api url (render w).
Proof.
  unfold useNetlifyIdentity, bind, ret.
  destruct (runRoutes_effect rr enable _) as [[routes|m] w1]; [|discriminate].
  destruct (settings_effect w1) as [[fetched|m] w2]; [|discriminate].
  by intros [= <- _ _].
Qed.

Lemma rerender_mounted h : mounted h -> mounted (rerender h).
Proof.
  intros (H1 & H2 & H3 & Hr & Hs). unfold mounted, rerender; simpl.
  rewrite !useMemo_same by assumption. auto.
Qed.

(** ** Facts: the flow router *)

Import RunRoutes.

Lemma dispatch_run k loc param w :
  exists pending,
    dispatch k loc param w =
    (Returned pending,
     {| session := session w; location := location w;
        calls := calls w ++ routed_calls loc param;
        notified := notified w; hooks := hooks w |}) /\
    (routed_calls loc param = [] -> pending = None).
Proof.
  unfold dispatch, routed_calls.
  destruct (TokenParam.type param) as [[]|], (TokenParam.token param) as [tk|];
    unfold bind, call, ret; simpl;
    try (eexists; split; [reflexivity | discriminate]);
    (eexists; split; [rewrite app_nil_r; destruct w; reflexivity | reflexivity]).
Qed.

Lemma runRoutes_run prec k w :
  exists pending,
    runRoutes prec k w =
    (Returned (parse prec (location w), pending),
     {| session := session w; location := strip (location w);
        calls := calls w ++ routed_calls (location w) (parse prec (location w));
        notified := notified w; hooks := hooks w |}) /\
    (routed_calls (location w) (parse prec (location w)) = [] -> pending = None).
Proof.
  unfold runRoutes, bind at 1, read_location.
  destruct (dispatch_run k (location w) (parse prec (location w)) w)
    as (pending & Hd & Hnone).
  exists pending. split; [|exact Hnone].
  unfold bind at 1. rewrite Hd. reflexivity.
Qed.

Arguments runRoutes : simpl never.
Arguments _setUser : simpl never.

(** The first render with its two effects, the router being the one of
    [RunRoutes]. *)
Lemma useNetlifyIdentity_mount prec url enable w :
  hooks w = None ->
  exists routes w',
    useNetlifyIdentity (runRoutes prec) url enable w =
    (Returned (hook_api url (first_render (session w)),
               {| routes_promise := routes;
                  settings_promise :=
                    Some (then_ {| awaiting := gotrue_settings;
                                   on_fulfilled := ret |} setSettings) |}),
     w') /\
    session w' = session w /\
    notified w' = notified w /\
    hooks w' =
      Some (after_mount (session w)
              (stored_param enable (parse prec (location w)))) /\
    calls w' =
      calls w
      ++ (if enable
          then routed_calls (location w) (parse prec (location w)) else [])
      ++ [gotrue_settings] /\
    location w' = (if enable then strip (location w) else location w) /\
    ((if enable
      then routed_calls (location w) (parse prec (location w)) else []) = []
     -> routes = None).
Proof.
  intros Hh.
  unfold useNetlifyIdentity, render. rewrite Hh.
  unfold bind at 1. unfold runRoutes_effect, effect_due. simpl.
  unfold bind at 1. simpl.
  destruct enable; simpl.
  - unfold bind at 1.
    match goal with
    | |- context [runRoutes prec _setUser ?x] =>
        destruct (runRoutes_run prec _setUser x) as (pending & Hrun & Hnone)
    end.
    simpl in Hrun, Hnone. rewrite Hrun. simpl.
    unfold stored_param. simpl.
    destruct (truthy_string (TokenParam.token (parse prec (location w)))
              || truthy (TokenParam.error (parse prec (location w))));
      simpl; eexists pending, _;
      (split; [reflexivity|]); simpl; rewrite <- app_assoc; auto 10.
  - eexists None, _. split; [reflexivity|]. simpl. auto 10.
Qed.

Lemma wf_initial s loc : wf (initial_world s loc).
Proof. intros h Hh. discriminate Hh. Qed.

Lemma with_hooks_wf w h : mounted h -> wf (with_hooks w (Some h)).
Proof. intros Hm h' [= <-]. exact Hm. Qed.

Lemma after_mount_mounted s p : mounted (after_mount s p).
Proof. repeat split. Qed.

(** Every render of the hook returns its API; the callbacks keyed on
    [user] are those of the user slot, and the render itself neither
    changes the slot nor tells the listener. *)
Lemma useNetlifyIdentity_returns prec url enable w :
  wf w ->
  exists api pend w',
    useNetlifyIdentity (runRoutes prec) url enable w =
      (Returned (api, pend), w') /\
    wf w' /\
    API.user api = user (render w) /\
    user_slot w' = Some (API.user api) /\
    API.logoutUser api = logoutUser (API.user api) /\
    API.updateUser api = updateUser (API.user api) /\
    API.getFreshJWT api = getFreshJWT (API.user api) /\
    notified w' = notified w /\
    session w' = session w.
Proof.
  intros Hw. destruct (hooks w) as [h|] eqn:Hh.
  - pose proof (Hw h Hh) as Hm.
    rewrite (useNetlifyIdentity_rerender _ url enable w h Hh Hm).
    destruct (render_callbacks_current w Hw) as (Hu & Hj & Hl).
    unfold render in *. rewrite Hh in *.
    eexists _, _, _. split; [reflexivity|].
    split; [apply with_hooks_wf, rerender_mounted, Hm|].
    unfold hook_api, user_slot. rewrite Hu, Hj, Hl. simpl.
    auto 10.
  - destruct (useNetlifyIdentity_mount prec url enable w Hh)
      as (routes & w' & Hrun & Hs & Hn & Hhooks & _).
    eexists _, _, w'. split; [exact Hrun|].
    split; [intros h'; rewrite Hhooks; intros [= <-]; apply after_mount_mounted|].
    unfold user_slot, render. rewrite Hhooks, Hh. simpl. auto 10.
Qed.

Lemma modify_hooks_keeps_wf f w :
  (forall h, mounted h -> mounted (f h)) ->
  wf w -> wf (modify_hooks f w).2.
Proof.
  intros Hf Hw h'. simpl.
  destruct (hooks w) as [h|] eqn:Hh; simpl; [|discriminate].
  intros [= <-]. apply Hf, (Hw h Hh).
Qed.

(** Every world a component can reach is well formed: induction on its
    steps. *)
Lemma step_keeps_wf prec url enable w w' :
  step prec url enable w w' -> wf w -> wf w'.
Proof.
  intros Hstep Hw. destruct Hstep as [w|c w|v w|v w|v w].
  - destruct (useNetlifyIdentity_returns prec url enable w Hw)
      as (api & pend & w' & Hrun & Hw' & _).
    rewrite Hrun. exact Hw'.
  - exact Hw.
  - by apply _setUser_keeps_wf.
  - by apply modify_hooks_keeps_wf.
  - by apply modify_hooks_keeps_wf.
Qed.

Lemma reachable_wf prec url enable w :
  reachable prec url enable w -> wf w.
Proof.
  intros (s & loc & Hsteps).
  revert w Hsteps. apply rtc_ind_r; [apply wf_initial|].
  intros y z _ Hstep Hy. eapply step_keeps_wf; eassumption.
Qed.

(** In every world a component can reach, the [authedFetch] closures
    hold the user the backend client had persisted when the component was
    mounted, whatever the user slot has become since. *)
Lemma reachable_authedFetch_user prec url enable w h :
  reachable prec url enable w ->
  hooks w = Some h ->
  (memo_authedFetch h).2 = session w.
Proof.
  intros (s & loc & Hsteps). revert h.
  assert (Hinv : wf w /\
            forall h, hooks w = Some h -> (memo_authedFetch h).2 = session w);
    [|tauto].
  revert w Hsteps. apply rtc_ind_r.
  - split; [apply wf_initial | discriminate].
  - intros y z _ Hstep [Hy Hmemo].
    split; [eapply step_keeps_wf; eassumption|].
    destruct Hstep as [w|c w|v w|v w|v w].
    + destruct (hooks w) as [h0|] eqn:Hh.
      * rewrite (useNetlifyIdentity_rerender _ url enable w h0 Hh (Hy h0 Hh)).
        simpl. intros h [= <-]. rewrite rerender_keeps_authedFetch.
        by apply Hmemo.
      * destruct (useNetlifyIdentity_mount prec url enable w Hh)
          as (routes & w' & Hrun & Hs & _ & Hhooks & _).
        rewrite Hrun. simpl. rewrite Hhooks, Hs. by intros h [= <-].
    + exact Hmemo.
    + rewrite _setUser_run. simpl.
      destruct (hooks w) as [h0|] eqn:Hh; simpl; [|discriminate].
      intros h [= <-]. simpl. by apply Hmemo.
    + simpl. destruct (hooks w) as [h0|] eqn:Hh; simpl; [|discriminate].
      intros h [= <-]. simpl. by apply Hmemo.
    + simpl. destruct (hooks w) as [h0|] eqn:Hh; simpl; [|discriminate].
      intros h [= <-]. simpl. by apply Hmemo.
Qed.

(** ** The claims *)

(** C10. In every state of the hook, [isLoggedIn] is true exactly when a
    current user is set, and [isConfirmedUser] exactly when a current user
    is set whose [confirmed_at] holds a timestamp (a non-empty string);
    both are computed from the stored user alone: two renders with the
    same stored user give the same flags. *)
Theorem C10_derived_flags (url : Js.jsstring) (h : Hooks) :
  let api := hook_api url h in
  API.user api = user h /\
  (API.isLoggedIn api = true <-> exists u, user h = Some u) /\
  (API.isConfirmedUser api = true <->
     exists u ts, user h = Some u /\ confirmed_at u = Some ts /\ ts <> "") /\
  (forall url' h', user h' = user h ->
     API.isLoggedIn (hook_api url' h') = API.isLoggedIn api /\
     API.isConfirmedUser (hook_api url' h') = API.isConfirmedUser api).
Proof.
  simpl. split; [reflexivity|]. split; [|split].
  - unfold isLoggedIn, truthy. destruct (user h) as [u|].
    + split; eauto.
    + split; [discriminate | intros [u Hu]; discriminate].
  - unfold isConfirmedUser, truthy_string.
    destruct (user h) as [u|].
    + destruct (confirmed_at u) as [ts|] eqn:Hc.
      * destruct (String.eqb_spec ts "") as [->|Hne]; simpl.
        -- split; [discriminate|].
           intros (u' & ts' & [= <-] & Hts & Hne). congruence.
        -- split; [intros _; eauto 6 | reflexivity].
      * split; [discriminate|].
        intros (u' & ts' & [= <-] & Hts & _). congruence.
    + split; [discriminate | intros (u' & ts' & Hu & _); discriminate].
  - intros url' h' ->. split; reflexivity.
Qed.

(** The siblings of [recoverAccount] hand the backend's answer to
    [_setUser]. *)
Lemma signupUser_routes email password data w :
  exists p w',
    signupUser email password data w = (Returned p, w') /\
    awaiting p = gotrue_signup email password data /\
    forall u w2, settle p (Fulfilled u) w2 = _setUser (Some u) w2.
Proof.
  eexists _, _. split; [reflexivity|]. split; [reflexivity|].
  intros u w2. reflexivity.
Qed.

Lemma loginUser_routes email password remember w :
  exists p w',
    loginUser email password remember w = (Returned p, w') /\
    awaiting p = gotrue_login email password (default true remember) /\
    forall u w2, settle p (Fulfilled u) w2 = _setUser (Some u) w2.
Proof.
  eexists _, _. split; [reflexivity|]. split; [reflexivity|].
  intros u w2. reflexivity.
Qed.

Lemma updateUser_routes u0 fields w :
  exists p w',
    updateUser (Some u0) fields w = (Returned p, w') /\
    awaiting p = user_update u0 fields /\
    forall u w2, settle p (Fulfilled u) w2 = _setUser (Some u) w2.
Proof.
  eexists _, _. split; [reflexivity|]. split; [reflexivity|].
  intros u w2. reflexivity.
Qed.

Lemma logoutUser_routes u0 w :
  exists p w',
    logoutUser (Some u0) w = (Returned p, w') /\
    awaiting p = user_logout u0 /\
    calls w' = calls w ++ [user_logout u0] /\
    hooks w' = hooks w /\ notified w' = notified w /\
    (forall w2, settle p (Fulfilled tt) w2 = _setUser None w2) /\
    (forall reason w2, settle p (Rejected reason) w2 = (Threw reason, w2)).
Proof.
  eexists _, _. split; [reflexivity|]. simpl. repeat split.
Qed.

(** C1. [recoverAccount] returns the backend's promise as it is: when
    the backend answers with the recovered user, the user slot is left as
    it was and the listener is not told. *)
Theorem C1_recoverAccount_skips_setter
    (token : string) (remember : option bool) (w : World) :
  exists p w',
    recoverAccount token remember w = (Returned p, w') /\
    awaiting p = gotrue_recover token remember /\
    forall (u : User) (w2 : World),
      settle p (Fulfilled u) w2 = (Returned u, w2) /\
      (settle p (Fulfilled u) w2).2 <> (_setUser (Some u) w2).2.
Proof.
  eexists _, _. split; [reflexivity|]. split; [reflexivity|].
  intros u w2. split; [reflexivity|].
  rewrite _setUser_run. simpl. intros Heq.
  apply (f_equal notified) in Heq. simpl in Heq.
  apply (f_equal length) in Heq. rewrite length_app in Heq. simpl in Heq. lia.
Qed.

(** The callbacks of a render, keyed on [user], are those of the user
    slot. *)
Lemma render_api w url :
  wf w ->
  let api := hook_api url (render w) in
  user_slot (commit w) = Some (API.user api) /\
  API.logoutUser api = logoutUser (API.user api) /\
  API.updateUser api = updateUser (API.user api) /\
  API.getFreshJWT api = getFreshJWT (API.user api).
Proof.
  intros Hw. destruct (render_callbacks_current w Hw) as (Hu & Hj & Hl).
  unfold hook_api. simpl. rewrite Hu, Hj, Hl. auto.
Qed.

(** C2. On the API of any render, whose [user] is the user slot at that
    render, and in whatever world it is invoked: with no current user,
    [logoutUser], [updateUser] and [getFreshJWT] throw the "no current
    user" error at the call, the world (and so the list of backend calls)
    being left as it was; with a current user none of them throws, and
    each makes its backend call. *)
Theorem C2_no_current_user_precondition
    (url : Js.jsstring) (fields : JsObject) (w w' : World) :
  wf w ->
  let api := hook_api url (render w) in
  user_slot (commit w) = Some (API.user api) /\
  match API.user api with
  | None =>
      API.logoutUser api w' = (Threw errors.noUserFound, w') /\
      API.updateUser api fields w' = (Threw errors.noUserFound, w') /\
      API.getFreshJWT api w' = (Threw errors.noUserFound, w')
  | Some u =>
      (exists p w2,
         API.logoutUser api w' = (Returned p, w2) /\
         awaiting p = user_logout u /\
         calls w2 = calls w' ++ [user_logout u]) /\
      (exists p w2,
         API.updateUser api fields w' = (Returned p, w2) /\
         awaiting p = user_update u fields /\
         calls w2 = calls w' ++ [user_update u fields]) /\
      (exists p w2,
         API.getFreshJWT api w' = (Returned p, w2) /\
         awaiting p = user_jwt u /\
         calls w2 = calls w' ++ [user_jwt u])
  end.
Proof.
  intros Hw api.
  destruct (render_api w url Hw) as (Hslot & Hl & Hu & Hj).
  split; [exact Hslot|]. subst api. rewrite Hl, Hu, Hj.
  destruct (API.user (hook_api url (render w))) as [u|].
  - repeat split; eexists _, _; (split; [reflexivity|]); split; reflexivity.
  - repeat split.
Qed.

Lemma C2_witness :
  let w := initial_world None home in
  let api := hook_api site (render w) in
  let w' := commit w in
  user_slot (commit w) = Some (API.user api) /\
  match API.user api with
  | None =>
      API.logoutUser api w' = (Threw errors.noUserFound, w') /\
      API.updateUser api ∅ w' = (Threw errors.noUserFound, w') /\
      API.getFreshJWT api w' = (Threw errors.noUserFound, w')
  | Some u =>
      (exists p w2,
         API.logoutUser api w' = (Returned p, w2) /\
         awaiting p = user_logout u /\
         calls w2 = calls w' ++ [user_logout u]) /\
      (exists p w2,
         API.updateUser api ∅ w' = (Returned p, w2) /\
         awaiting p = user_update u ∅ /\
         calls w2 = calls w' ++ [user_update u ∅]) /\
      (exists p w2,
         API.getFreshJWT api w' = (Returned p, w2) /\
         awaiting p = user_jwt u /\
         calls w2 = calls w' ++ [user_jwt u])
  end.
Proof.
  apply (C2_no_current_user_precondition site ∅
           (initial_world None home) (commit (initial_world None home))).
  intros h Hh. simpl in Hh. discriminate Hh.
Defined.

(** C4. With a current user [u], [logoutUser] calls the backend and
    leaves the user slot and the listener alone; when the backend's logout
    is fulfilled the slot becomes absent and the listener is told once,
    with the absent value; when it is rejected nothing is changed. *)
Theorem C4_logout_clears_after_backend
    (url : Js.jsstring) (w w1 : World) (u : User) :
  wf w ->
  user (render w) = Some u ->
  let api := hook_api url (render w) in
  user_slot (commit w) = Some (Some u) /\
  exists p w2,
    API.logoutUser api w1 = (Returned p, w2) /\
    awaiting p = user_logout u /\
    calls w2 = calls w1 ++ [user_logout u] /\
    user_slot w2 = user_slot w1 /\
    notified w2 = notified w1 /\
    (forall w3 h3, hooks w3 = Some h3 ->
       exists w4,
         settle p (Fulfilled tt) w3 = (Returned None, w4) /\
         user_slot w4 = Some None /\
         notified w4 = notified w3 ++ [None] /\
         calls w4 = calls w3) /\
    (forall reason w3,
       settle p (Rejected reason) w3 = (Threw reason, w3)).
Proof.
  intros Hw Hu api.
  destruct (render_api w url Hw) as (Hslot & Hl & _).
  fold api in Hslot, Hl.
  assert (Hapi : API.user api = Some u) by exact Hu.
  rewrite Hapi in Hslot, Hl.
  split; [exact Hslot|].
  destruct (logoutUser_routes u w1)
    as (p & w2 & Hcall & Haw & Hcalls & Hhooks & Hnot & Hful & Hrej).
  exists p, w2. rewrite Hl. split; [exact Hcall|]. split; [exact Haw|].
  split; [exact Hcalls|].
  split; [unfold user_slot; by rewrite Hhooks|].
  split; [exact Hnot|]. split; [|exact Hrej].
  intros w3 h3 Hh3. rewrite Hful.
  destruct (_setUser_spec None w3 h3 Hh3)
    as (w4 & h4 & Hset & Hh4 & Huser & Hn & Hc & _).
  exists w4. split; [exact Hset|]. unfold user_slot. rewrite Hh4. simpl.
  rewrite Huser. auto.
Qed.

Lemma C4_witness :
  let w := with_hooks (initial_world (Some alice) home)
             (Some (after_mount (Some alice) defaultParam)) in
  let api := hook_api site (render w) in
  let w1 := commit w in
  user_slot (commit w) = Some (Some alice) /\
  exists p w2,
    API.logoutUser api w1 = (Returned p, w2) /\
    awaiting p = user_logout alice /\
    calls w2 = calls w1 ++ [user_logout alice] /\
    user_slot w2 = user_slot w1 /\
    notified w2 = notified w1 /\
    (forall w3 h3, hooks w3 = Some h3 ->
       exists w4,
         settle p (Fulfilled tt) w3 = (Returned None, w4) /\
         user_slot w4 = Some None /\
         notified w4 = notified w3 ++ [None] /\
         calls w4 = calls w3) /\
    (forall reason w3,
       settle p (Rejected reason) w3 = (Threw reason, w3)).
Proof.
  apply (C4_logout_clears_after_backend site
           (with_hooks (initial_world (Some alice) home)
              (Some (after_mount (Some alice) defaultParam)))
           (commit (with_hooks (initial_world (Some alice) home)
                      (Some (after_mount (Some alice) defaultParam))))
           alice).
  - intros h Hh. simpl in Hh. injection Hh as <-. repeat split.
  - reflexivity.
Defined.

Lemma routed_calls_no_settings loc p :
  List.filter is_settings (routed_calls loc p) = [].
Proof.
  unfold routed_calls.
  destruct (TokenParam.type p) as [[]|], (TokenParam.token p); reflexivity.
Qed.

Lemma filter_app_list {A} (f : A -> bool) (l1 l2 : list A) :
  List.filter f (l1 ++ l2) = List.filter f l1 ++ List.filter f l2.
Proof.
  induction l1 as [|a l1 IH]; simpl; [reflexivity|].
  destruct (f a); simpl; congruence.
Qed.

(** ** Facts: renders in a row *)

Lemma renders_last
    (rr : (option User -> Eff (option User)) ->
          Eff (TokenParam.t * option (Promise User (option User))))
    url enable n w :
  renders rr url enable (S n) w =
  (useNetlifyIdentity rr url enable (renders rr url enable n w)).2.
Proof.
  revert w. induction n as [|n IH]; intros w; [reflexivity|].
  change (renders rr url enable (S (S n)) w)
    with (renders rr url enable (S n) (useNetlifyIdentity rr url enable w).2).
  rewrite IH. reflexivity.
Qed.

(** Renders of a mounted hook only refresh its cells: the world is the
    same but for them, and the hook stays mounted with the same three
    state slots. *)
Lemma renders_mounted
    (rr : (option User -> Eff (option User)) ->
          Eff (TokenParam.t * option (Promise User (option User))))
    url enable n w h :
  hooks w = Some h -> mounted h ->
  exists h',
    renders rr url enable n w = with_hooks w (Some h') /\
    mounted h' /\
    user h' = user h /\ param h' = param h /\ settings h' = settings h.
Proof.
  revert w h. induction n as [|n IH]; intros w h Hh Hm.
  - exists h. split; [|auto]. destruct w; simpl in *. by subst.
  - simpl. rewrite (useNetlifyIdentity_rerender rr url enable w h Hh Hm).
    destruct (IH (with_hooks w (Some (rerender h))) (rerender h) eq_refl
                (rerender_mounted h Hm))
      as (h' & Hr & Hm' & Hu & Hp & Hs).
    exists h'. split; [exact Hr|]. split; [exact Hm'|].
    rewrite Hu, Hp, Hs. repeat split.
Qed.

(** The settings setter on a mounted hook: the slot takes the value, the
    rest of the state is as it was. *)
Lemma setSettings_mounted v w h :
  hooks w = Some h -> mounted h ->
  exists h',
    setSettings v w = (Returned tt, with_hooks w (Some h')) /\
    mounted h' /\
    settings h' = v /\ user h' = user h /\ param h' = param h.
Proof.
  intros Hh Hm. unfold setSettings, modify_hooks. rewrite Hh. simpl.
  eexists. split; [reflexivity|]. split; [exact Hm|]. repeat split.
Qed.

(** C8. At the first render the exposed settings are the default
    (signup open, auto-confirm off, only the email provider on); the
    mount issues exactly one settings fetch and leaves the hook mounted.
    However often the component then renders, the default stays exposed
    and nothing is fetched again. When the fetch is fulfilled, after any
    number of renders, the settings slot takes the fetched value and
    nothing else in the state changes; every later render exposes the
    fetched value, and the settings fetch of the mount is still the only
    one. The same holds for the fulfilment in any world where the hook is
    mounted. A rejected fetch changes nothing. *)
Theorem C8_settings_default_then_fetched
    (prec : Precedence) (url : Js.jsstring) (enable : bool)
    (currentUser : option User) (loc : Location) :
  exists api pend w1 h1 p,
    useNetlifyIdentity (runRoutes prec) url enable
      (initial_world currentUser loc) = (Returned (api, pend), w1) /\
    API.settings api = defaultSettings /\
    disable_signup defaultSettings = false /\
    autoconfirm defaultSettings = false /\
    external defaultSettings =
      {| bitbucket := false; email := true; facebook := false;
         github := false; gitlab := false; google := false |} /\
    hooks w1 = Some h1 /\ mounted h1 /\
    settings h1 = defaultSettings /\
    settings_promise pend = Some p /\
    awaiting p = gotrue_settings /\
    length (List.filter is_settings (calls w1)) = 1 /\
    (forall n,
       exists api_n w',
         useNetlifyIdentity (runRoutes prec) url enable
           (renders (runRoutes prec) url enable n w1) =
           (Returned (api_n, {| routes_promise := None;
                                settings_promise := None |}), w') /\
         API.settings api_n = defaultSettings /\
         calls w' = calls w1) /\
    (forall n fetched,
       exists w3 h3,
         settle p (Fulfilled fetched)
           (renders (runRoutes prec) url enable n w1) = (Returned tt, w3) /\
         hooks w3 = Some h3 /\
         settings h3 = fetched /\
         user h3 = user h1 /\ param h3 = param h1 /\
         notified w3 = notified w1 /\ calls w3 = calls w1 /\
         location w3 = location w1 /\
         forall m,
           exists api' w4,
             useNetlifyIdentity (runRoutes prec) url enable
               (renders (runRoutes prec) url enable m w3) =
               (Returned (api', {| routes_promise := None;
                                   settings_promise := None |}), w4) /\
             API.settings api' = fetched /\
             calls w4 = calls w1 /\
             length (List.filter is_settings (calls w4)) = 1) /\
    (forall fetched w2 h2,
       hooks w2 = Some h2 -> mounted h2 ->
       exists w3 h3,
         settle p (Fulfilled fetched) w2 = (Returned tt, w3) /\
         hooks w3 = Some h3 /\
         settings h3 = fetched /\
         user h3 = user h2 /\ param h3 = param h2 /\
         notified w3 = notified w2 /\ calls w3 = calls w2 /\
         location w3 = location w2 /\
         exists api' w4,
           useNetlifyIdentity (runRoutes prec) url enable w3 =
             (Returned (api', {| routes_promise := None;
                                 settings_promise := None |}), w4) /\
           API.settings api' = fetched /\
           calls w4 = calls w3) /\
    (forall reason w2, settle p (Rejected reason) w2 = (Threw reason, w2)).
Proof.
  destruct (useNetlifyIdentity_mount prec url enable
              (initial_world currentUser loc) eq_refl)
    as (routes & w1 & Hrun & _ & _ & Hhooks & Hcalls & _).
  assert (Hone : length (List.filter is_settings (calls w1)) = 1).
  { rewrite Hcalls. simpl. rewrite filter_app_list.
    destruct enable; [rewrite routed_calls_no_settings|]; reflexivity. }
  eexists _, _, w1, _, _. split; [exact Hrun|].
  repeat (split; [reflexivity|]).
  split; [exact Hhooks|]. split; [apply after_mount_mounted|].
  repeat (split; [reflexivity|]).
  split; [exact Hone|].
  split; [|split; [|split; [|reflexivity]]].
  - intros n.
    destruct (renders_mounted (runRoutes prec) url enable n w1 _ Hhooks
                (after_mount_mounted _ _))
      as (h' & Hr & Hm' & _ & _ & Hs).
    eexists _, _. split.
    + rewrite Hr.
      apply (useNetlifyIdentity_rerender _ _ _ (with_hooks w1 (Some h')) h'
               eq_refl Hm').
    + split; [exact Hs | reflexivity].
  - intros n fetched.
    destruct (renders_mounted (runRoutes prec) url enable n w1 _ Hhooks
                (after_mount_mounted _ _))
      as (h' & Hr & Hm' & Hu & Hp & _).
    rewrite Hr.
    destruct (setSettings_mounted fetched (with_hooks w1 (Some h')) h'
                eq_refl Hm')
      as (h3 & Hset & Hm3 & Hs3 & Hu3 & Hp3).
    eexists _, h3. split; [exact Hset|].
    split; [reflexivity|]. split; [exact Hs3|].
    split; [by rewrite Hu3|]. split; [by rewrite Hp3|].
    repeat (split; [reflexivity|]).
    intros m.
    destruct (renders_mounted (runRoutes prec) url enable m
                (with_hooks (with_hooks w1 (Some h')) (Some h3)) h3
                eq_refl Hm3)
      as (h4 & Hr' & Hm4 & _ & _ & Hs4).
    eexists _, _. split.
    + rewrite Hr'.
      apply (useNetlifyIdentity_rerender _ _ _
               (with_hooks (with_hooks (with_hooks w1 (Some h')) (Some h3))
                  (Some h4)) h4 eq_refl Hm4).
    + split; [simpl; congruence|].
      split; [reflexivity | exact Hone].
  - intros fetched w2 h2 Hh2 Hm.
    eexists _, _. split; [simpl; unfold bind, ret, setSettings, modify_hooks;
                          rewrite Hh2; reflexivity|].
    simpl. repeat (split; [reflexivity|]).
    eexists _, _. split.
    + apply useNetlifyIdentity_rerender; [reflexivity|].
      destruct Hm as (H1 & H2 & H3 & H4 & H5). repeat split; assumption.
    + split; reflexivity.
Qed.

(** An [obj] without a [headers] property keeps the default headers. *)
Lemma finalObj_default_headers tk method obj :
  obj !! "headers" = None ->
  bearer_json_headers (finalObj tk method obj) tk.
Proof.
  intros Hobj. eexists. split; [|split].
  - unfold finalObj, assign, defaultObj.
    rewrite lookup_union_r by exact Hobj.
    rewrite lookup_union_r by (apply lookup_singleton_ne; discriminate).
    apply lookup_singleton_eq.
  - reflexivity.
  - reflexivity.
Qed.

Lemma finalObj_default_method tk method obj :
  obj !! "method" = None ->
  finalObj tk method obj !! "method" = Some (JString method).
Proof.
  intros Hobj. unfold finalObj, assign.
  rewrite lookup_union_r by exact Hobj.
  rewrite (lookup_union_Some_l _ _ _ (JString method)); [reflexivity|].
  apply lookup_singleton_eq.
Qed.

Lemma finalObj_obj_wins tk method (obj : JsObject) k v :
  obj !! k = Some v -> finalObj tk method obj !! k = Some v.
Proof.
  intros Hobj. unfold finalObj, assign.
  apply lookup_union_Some_l. exact Hobj.
Qed.

Lemma genericAuthedFetch_no_token user method endpoint obj w :
  live_access_token user = None ->
  genericAuthedFetch user method endpoint obj w = (Threw errors.noTokenFound, w).
Proof. intros H. unfold genericAuthedFetch. rewrite H. reflexivity. Qed.

Lemma genericAuthedFetch_token user tk method endpoint obj w :
  live_access_token user = Some tk ->
  exists p w',
    genericAuthedFetch user method endpoint obj w = (Returned p, w') /\
    awaiting p = fetch endpoint (finalObj tk method obj) /\
    calls w' = calls w ++ [fetch endpoint (finalObj tk method obj)] /\
    hooks w' = hooks w /\ notified w' = notified w.
Proof.
  intros H. unfold genericAuthedFetch. rewrite H.
  eexists _, _. split; [reflexivity|]. repeat split.
Qed.

(** With the default headers the answer of [fetch] is read as JSON. *)
Lemma genericAuthedFetch_reads_json user tk method endpoint obj w res w2 :
  live_access_token user = Some tk ->
  obj !! "headers" = None ->
  exists p w',
    genericAuthedFetch user method endpoint obj w = (Returned p, w') /\
    settle p (Fulfilled res) w2 = (Returned (json_of res), w2).
Proof.
  intros Htk Hobj. unfold genericAuthedFetch. rewrite Htk.
  eexists _, _. split; [reflexivity|].
  destruct (finalObj_default_headers tk method obj Hobj)
    as (headers & Hh & _ & Hct).
  simpl. unfold bind, ret. rewrite Hh.
  destruct (decide (headers !! "Content-Type" = Some "application/json"));
    [reflexivity | contradiction].
Qed.

(** C3, as the code has it. An authenticated fetch fails with "no user
    token found", the world untouched, when the user held by the
    [authedFetch] closures has no live access token; when it has one the
    request goes to [fetch] with [Object.assign(defaults, {method}, obj)]:
    the bearer header and the JSON content type are there whenever [obj]
    has no [headers] of its own, the method is the verb unless [obj] sets
    one, and every property of [obj] is passed on. On the first render the
    closures hold the current user. *)
Theorem C3_authed_fetch
    (url : Js.jsstring) (h : Hooks) (verb : Verb)
    (endpoint : string) (obj : JsObject) (w : World) :
  let held := (memo_authedFetch h).2 in
  let request := send verb (API.authedFetch (hook_api url h)) endpoint obj in
  match live_access_token held with
  | None => request w = (Threw errors.noTokenFound, w)
  | Some tk =>
      let init := finalObj tk (method_of verb) obj in
      (exists p w',
         request w = (Returned p, w') /\
         awaiting p = fetch endpoint init /\
         calls w' = calls w ++ [fetch endpoint init]) /\
      (obj !! "headers" = None -> bearer_json_headers init tk) /\
      (obj !! "method" = None ->
         init !! "method" = Some (JString (method_of verb))) /\
      (forall k v, obj !! k = Some v -> init !! k = Some v)
  end /\
  (forall currentUser,
     (memo_authedFetch (first_render currentUser)).2
     = user (first_render currentUser)).
Proof.
  simpl. split; [|reflexivity].
  destruct (live_access_token (memo_authedFetch h).2) as [tk|] eqn:Htk.
  - split; [|split; [|split]].
    + destruct verb; simpl;
        (edestruct genericAuthedFetch_token as (p & w' & Hr & Ha & Hc & _);
         [exact Htk|]); eexists _, _; eauto.
    + apply finalObj_default_headers.
    + apply finalObj_default_method.
    + apply finalObj_obj_wins.
  - destruct verb; simpl; apply genericAuthedFetch_no_token; exact Htk.
Qed.

(** C3, as stated, fails: on the first render, with a current user who
    has a live access token, a request whose options bring their own
    [headers] reaches [fetch] without the bearer header. *)
Lemma C3_counterexample :
  let obj : JsObject := {[ "headers" := JObject {[ "X-Trace" := "1" ]} ]} in
  let w := initial_world (Some alice) home in
  let api := hook_api site (render w) in
  user_slot (commit w) = Some (Some alice) /\
  live_access_token (Some alice) = Some "eyJhbGciOi" /\
  exists p w2 init,
    AuthedFetch.get (API.authedFetch api) "/api/items" obj (commit w)
      = (Returned p, w2) /\
    awaiting p = fetch "/api/items" init /\
    ~ bearer_json_headers init "eyJhbGciOi".
Proof.
  cbv zeta. split; [reflexivity|]. split; [reflexivity|].
  destruct (genericAuthedFetch_token (Some alice) "eyJhbGciOi" "GET"
              "/api/items" {[ "headers" := JObject {[ "X-Trace" := "1" ]} ]}
              (commit (initial_world (Some alice) home)) eq_refl)
    as (p & w2 & Hsend & Hp & _).
  eexists p, w2, _.
  split; [exact Hsend|]. split; [exact Hp|].
  intros (headers & Hh & Ha & _).
  rewrite (finalObj_obj_wins _ _ _ "headers" (JObject {[ "X-Trace" := "1" ]}))
    in Hh by apply lookup_singleton_eq.
  injection Hh as <-.
  rewrite lookup_singleton_ne in Ha by discriminate. discriminate Ha.
Qed.

(** After a recovery the backend has answered with a user, yet the hook
    still shows nobody and the listener has heard nothing. *)
Lemma recover_then_render_run :
  exists api w,
    recover_then_render (initial_world None home) = (Returned api, w) /\
    calls w = [gotrue_settings; gotrue_recover "recovery-token" None] /\
    user_slot w = Some None /\
    API.isLoggedIn api = false /\
    notified w = [].
Proof. eexists _, _. split; [reflexivity|]. repeat split. Qed.

(** The [authedFetch] memo has no dependency on [user]: after a login the
    hook shows the user, and the fetch still fails for want of a token. *)
Lemma login_then_fetch_run :
  exists w,
    login_then_fetch (initial_world None home)
      = (Threw errors.noTokenFound, w) /\
    user_slot w = Some (Some alice) /\
    notified w = [Some alice] /\
    calls w =
      [gotrue_settings; gotrue_login "alice@example.com" "secret" true].
Proof. eexists. split; [reflexivity|]. repeat split. Qed.

(** ** Facts: the parser *)

Lemma find_flow_none params :
  (forall v, ("type", v) ∈ params -> flow_of_name v = None) ->
  find_flow params = None.
Proof.
  induction params as [|[k v] rest IH]; intros Hall; simpl; [reflexivity|].
  destruct (String.eqb_spec k "type") as [->|Hk].
  - rewrite (Hall v) by left. apply IH. intros v' Hin. apply Hall. by right.
  - apply IH. intros v' Hin. apply Hall. by right.
Qed.

Lemma lookup_param_none key params :
  (forall v, (key, v) ∉ params) -> lookup_param key params = None.
Proof.
  induction params as [|[k v] rest IH]; intros Hall; simpl; [reflexivity|].
  destruct (String.eqb_spec k key) as [->|Hk].
  - exfalso. apply (Hall v). left.
  - apply IH. intros v' Hin. apply (Hall v'). by right.
Qed.

Lemma no_flow_marker_signal loc :
  no_flow_marker loc -> flow_signal loc = None.
Proof.
  intros [Hty|Htk]; unfold flow_signal.
  - rewrite find_flow_none by exact Hty. reflexivity.
  - rewrite (lookup_param_none "access_token") by exact Htk.
    destruct (find_flow (fragment loc)); reflexivity.
Qed.

Lemma error_signal_false loc :
  ("error", "access_denied") ∉ query loc -> error_signal loc = false.
Proof. intros H. unfold error_signal. by apply bool_decide_eq_false. Qed.

Lemma error_signal_true loc :
  ("error", "access_denied") ∈ query loc -> error_signal loc = true.
Proof. intros H. unfold error_signal. by apply bool_decide_eq_true. Qed.

Lemma parse_default prec loc :
  flow_signal loc = None -> error_signal loc = false ->
  parse prec loc = defaultParam.
Proof. intros Hf He. unfold parse. rewrite Hf, He. by destruct prec. Qed.

Lemma parse_denied prec loc :
  error_signal loc = true ->
  prec = error_first \/ flow_signal loc = None ->
  parse prec loc = denied_param.
Proof.
  intros He [->|Hf]; unfold parse; rewrite He.
  - by destruct (flow_signal loc) as [[]|].
  - rewrite Hf. by destruct prec.
Qed.





(** A confirmation link: the first run confirms the token and strips
    the location, the second finds nothing to do. *)
Example router_confirmation_link :
  let w := initial_world None
             (of_href "https://example.netlify.com/#access_token=abc&type=confirmation") in
  let first := runRoutes flow_first _setUser w in
  let second := runRoutes flow_first _setUser first.2 in
  (exists pending,
     first.1 = Returned (flow_param confirmation "abc", Some pending)) /\
  calls first.2 = [gotrue_confirm "abc"] /\
  location first.2 = of_href "https://example.netlify.com/" /\
  second.1 = Returned (defaultParam, None) /\
  calls second.2 = [gotrue_confirm "abc"].
Proof.
  cbv zeta. split; [vm_compute; eexists; reflexivity|].
  repeat split; vm_compute; reflexivity.
Qed.

(** A recovery link: the token is surfaced and the backend is not
    called. *)
Example router_recovery_link :
  let w := initial_world None
             (of_href "https://example.netlify.com/#access_token=abc&type=recovery") in
  let first := runRoutes error_first _setUser w in
  first.1 = Returned (flow_param recovery "abc", None) /\
  calls first.2 = [].
Proof. cbv zeta. split; vm_compute; reflexivity. Qed.



(** C6. For a location string without a recognised flow marker (no
    [type] parameter of the fragment names a flow, or the fragment has no
    access token; the query has no [error=access_denied]) the parser
    answers the default [TokenParam], [type] and [token] undefined, and
    after the mount the stored [TokenParam] is still the default: the
    router left no promise and only the settings were fetched. *)
Theorem C6_no_marker_default
    (prec : Precedence) (href : string) (url : Js.jsstring)
    (enable : bool) (currentUser : option User) :
  no_flow_marker (of_href href) ->
  ("error", "access_denied") ∉ query (of_href href) ->
  parse prec (of_href href) = defaultParam /\
  TokenParam.type (parse prec (of_href href)) = None /\
  TokenParam.token (parse prec (of_href href)) = None /\
  exists api pend w1,
    useNetlifyIdentity (runRoutes prec) url enable
      (initial_world currentUser (of_href href)) = (Returned (api, pend), w1) /\
    API.param api = defaultParam /\
    param <$> hooks w1 = Some defaultParam /\
    routes_promise pend = None /\
    calls w1 = [gotrue_settings] /\
    notified w1 = [].
Proof.
  intros Hflow Herr.
  assert (Hp : parse prec (of_href href) = defaultParam).
  { apply parse_default;
      [apply no_flow_marker_signal, Hflow | apply error_signal_false, Herr]. }
  rewrite Hp. repeat (split; [reflexivity|]).
  destruct (useNetlifyIdentity_mount prec url enable
              (initial_world currentUser (of_href href)) eq_refl)
    as (routes & w1 & Hrun & _ & Hn & Hhooks & Hcalls & _ & Hnone).
  simpl in Hhooks, Hcalls, Hnone, Hn. rewrite Hp in Hhooks, Hcalls, Hnone.
  assert (Hno : (if enable
                 then routed_calls (of_href href) defaultParam else []) = [])
    by (destruct enable; reflexivity).
  rewrite Hno in Hcalls. rewrite (Hnone Hno) in Hrun.
  eexists _, _, w1. split; [exact Hrun|]. split; [reflexivity|].
  split; [rewrite Hhooks; simpl; f_equal; unfold stored_param;
          destruct enable; reflexivity|].
  split; [reflexivity|]. split; [exact Hcalls | exact Hn].
Qed.

Lemma C6_witness :
  parse flow_first (of_href "https://example.netlify.com/docs?page=2#install")
    = defaultParam /\
  TokenParam.type
    (parse flow_first (of_href "https://example.netlify.com/docs?page=2#install"))
    = None /\
  TokenParam.token
    (parse flow_first (of_href "https://example.netlify.com/docs?page=2#install"))
    = None /\
  exists api pend w1,
    useNetlifyIdentity (runRoutes flow_first) site true
      (initial_world None
         (of_href "https://example.netlify.com/docs?page=2#install"))
      = (Returned (api, pend), w1) /\
    API.param api = defaultParam /\
    param <$> hooks w1 = Some defaultParam /\
    routes_promise pend = None /\
    calls w1 = [gotrue_settings] /\
    notified w1 = [].
Proof.
  apply (C6_no_marker_default flow_first
           "https://example.netlify.com/docs?page=2#install" site true None).
  - right. intros v Hin. vm_compute in Hin.
    apply list_elem_of_singleton in Hin. discriminate Hin.
  - intros Hin. vm_compute in Hin.
    apply list_elem_of_singleton in Hin. discriminate Hin.
Defined.

(** C7. For a location whose query string carries [error=access_denied]
    (the error winning over a flow marker, or no flow marker being there)
    the parser answers [type] undefined, [error] "access_denied" and
    [status] 403; the router calls no backend operation and leaves no
    promise, and the mount stores that [TokenParam], the settings fetch
    being its only call. *)
Theorem C7_access_denied
    (prec : Precedence) (loc : Location) (url : Js.jsstring)
    (currentUser : option User)
    (k : option User -> Eff (option User)) (w : World) :
  ("error", "access_denied") ∈ query loc ->
  prec = error_first \/ no_flow_marker loc ->
  location w = loc ->
  TokenParam.type (parse prec loc) = None /\
  TokenParam.token (parse prec loc) = None /\
  TokenParam.error (parse prec loc) = Some access_denied /\
  status_code <$> TokenParam.status (parse prec loc) = Some 403%N /\
  (exists w',
     runRoutes prec k w = (Returned (parse prec loc, None), w') /\
     calls w' = calls w) /\
  exists api pend w1,
    useNetlifyIdentity (runRoutes prec) url true
      (initial_world currentUser loc) = (Returned (api, pend), w1) /\
    param <$> hooks w1 = Some (parse prec loc) /\
    routes_promise pend = None /\
    calls w1 = [gotrue_settings].
Proof.
  intros Herr Hprec Hloc.
  assert (Hp : parse prec loc = denied_param).
  { apply parse_denied; [apply error_signal_true, Herr|].
    destruct Hprec as [->|Hf]; [by left | right].
    apply no_flow_marker_signal, Hf. }
  rewrite Hp. repeat (split; [reflexivity|]). split.
  - destruct (runRoutes_run prec k w) as (pending & Hrun & Hnone).
    rewrite Hloc, Hp in Hrun, Hnone. simpl in Hrun, Hnone.
    rewrite (Hnone eq_refl), app_nil_r in Hrun.
    eexists. split; [exact Hrun | reflexivity].
  - destruct (useNetlifyIdentity_mount prec url true
                (initial_world currentUser loc) eq_refl)
      as (routes & w1 & Hrun & _ & _ & Hhooks & Hcalls & _ & Hnone).
    simpl in Hhooks, Hcalls, Hnone. rewrite Hp in Hhooks, Hcalls, Hnone.
    simpl in Hcalls, Hnone. rewrite (Hnone eq_refl) in Hrun.
    eexists _, _, w1. split; [exact Hrun|].
    split; [rewrite Hhooks; reflexivity|]. split; [reflexivity | exact Hcalls].
Qed.

Lemma C7_witness :
  let loc :=
    of_href "https://example.netlify.com/?error=access_denied&error_description=403" in
  TokenParam.type (parse flow_first loc) = None /\
  TokenParam.token (parse flow_first loc) = None /\
  TokenParam.error (parse flow_first loc) = Some access_denied /\
  status_code <$> TokenParam.status (parse flow_first loc) = Some 403%N /\
  (exists w',
     runRoutes flow_first _setUser (initial_world None loc)
       = (Returned (parse flow_first loc, None), w') /\
     calls w' = calls (initial_world None loc)) /\
  exists api pend w1,
    useNetlifyIdentity (runRoutes flow_first) site true
      (initial_world None loc) = (Returned (api, pend), w1) /\
    param <$> hooks w1 = Some (parse flow_first loc) /\
    routes_promise pend = None /\
    calls w1 = [gotrue_settings].
Proof.
  apply (C7_access_denied flow_first
           (of_href "https://example.netlify.com/?error=access_denied&error_description=403")
           site None _setUser
           (initial_world None
              (of_href "https://example.netlify.com/?error=access_denied&error_description=403"))).
  - vm_compute. left.
  - right. right. intros v Hin. vm_compute in Hin.
    apply elem_of_nil in Hin. exact Hin.
  - reflexivity.
Defined.

(** ** Facts: the URL pattern *)

Section RegexFacts.

Import Js Regex.

Lemma ends_Empty s s' : s' ∈ ends Empty s <-> s' = s.
Proof. simpl. apply list_elem_of_singleton. Qed.

Lemma ends_Class p s s' :
  s' ∈ ends (Class p) s <-> exists c, s = c :: s' /\ p c = true.
Proof.
  simpl. destruct s as [|c rest].
  - split; [intros H; by apply elem_of_nil in H | intros (c & H & _); discriminate].
  - destruct (p c) eqn:Hp.
    + rewrite list_elem_of_singleton. split.
      * intros ->. eauto.
      * intros (c' & [= <- <-] & _). reflexivity.
    + split; [intros H; by apply elem_of_nil in H|].
      intros (c' & [= <- <-] & Hp'). congruence.
Qed.

Lemma ends_Cat r1 r2 s s' :
  s' ∈ ends (Cat r1 r2) s <-> exists m, m ∈ ends r1 s /\ s' ∈ ends r2 m.
Proof.
  simpl. rewrite elem_of_remove_dups, list_elem_of_In, in_flat_map.
  split; intros (m & H1 & H2); exists m.
  - by rewrite !list_elem_of_In.
  - by rewrite <- !list_elem_of_In.
Qed.

Lemma ends_Or r1 r2 s s' :
  s' ∈ ends (Or r1 r2) s <-> s' ∈ ends r1 s \/ s' ∈ ends r2 s.
Proof. simpl. by rewrite elem_of_remove_dups, elem_of_app. Qed.







End RegexFacts.

(** What the pattern accepts and what it turns away. *)
Example validateUrl_netlify :
  Url.validateUrl (Js.utf16 "https://example.netlify.com") = true.
Proof. vm_compute. reflexivity. Qed.

Example validateUrl_scheme_relative :
  Url.validateUrl (Js.utf16 "//example.netlify.com") = true.
Proof. vm_compute. reflexivity. Qed.

Example validateUrl_localhost :
  Url.validateUrl (Js.utf16 "http://localhost:8888") = false.
Proof. vm_compute. reflexivity. Qed.

Example validateUrl_loopback :
  Url.validateUrl (Js.utf16 "http://127.0.0.1:9000") = false.
Proof. vm_compute. reflexivity. Qed.

Example validateUrl_private_range :
  Url.validateUrl (Js.utf16 "https://192.168.1.20/identity") = false.
Proof. vm_compute. reflexivity. Qed.

Example validateUrl_public_address :
  Url.validateUrl (Js.utf16 "https://8.8.4.4/identity") = true.
Proof. vm_compute. reflexivity. Qed.

Example validateUrl_no_slashes :
  Url.validateUrl (Js.utf16 "example.netlify.com") = false.
Proof. vm_compute. reflexivity. Qed.

Lemma IdentityContextProvider_invalid rr url w :
  Url.validateUrl url = false ->
  IdentityContextProvider rr url w = (Threw (invalid_url_message url), w).
Proof.
  intros H. unfold IdentityContextProvider. rewrite H.
  rewrite orb_true_r. reflexivity.
Qed.





(** ** More facts: the URL pattern *)

Section PatternFacts.

Import Js Regex.

Lemma ends_NotAhead r s s' :
  s' ∈ ends (NotAhead r) s <-> s' = s /\ ends r s = [].
Proof.
  simpl. destruct (ends r s) as [|x l].
  - rewrite list_elem_of_singleton. tauto.
  - split; [intros H; by apply elem_of_nil in H | intros [_ H]; discriminate].
Qed.

Lemma rounds_nil step s' : rounds step [] s' -> s' = [].
Proof.
  inversion 1 as [|s m s'' Hm Hlen Hrest]; subst; [reflexivity|].
  simpl in Hlen. lia.
Qed.

Lemma repeat_step_rounds step fuel s s' :
  length s <= fuel ->
  s' ∈ repeat_step step fuel s <-> rounds step s s'.
Proof.
  revert s. induction fuel as [|k IH]; intros s Hlen.
  - destruct s; [|simpl in Hlen; lia]. simpl.
    rewrite list_elem_of_singleton. split.
    + intros ->. constructor.
    + apply rounds_nil.
  - simpl. rewrite elem_of_cons, list_elem_of_In, in_flat_map. split.
    + intros [->|(m & Hm & Hin)]; [constructor|].
      destruct (decide (length m < length s)) as [Hlt|];
        [|by apply elem_of_nil in Hin || destruct Hin].
      apply list_elem_of_In in Hm, Hin.
      apply (rounds_more _ _ m); [exact Hm | exact Hlt |].
      apply IH; [lia | exact Hin].
    + inversion 1 as [|s0 m s'' Hm Hlt Hrest]; subst; [by left|].
      right. exists m. split; [by apply list_elem_of_In|].
      destruct (decide (length m < length s)); [|contradiction].
      apply list_elem_of_In, IH; [lia | exact Hrest].
Qed.

Lemma ends_Many r s s' :
  s' ∈ ends (Many r) s <-> rounds (ends r) s s'.
Proof.
  simpl. rewrite elem_of_remove_dups. by apply repeat_step_rounds.
Qed.

(** What a match consumes is a prefix of the input, and each of its code
    units went through a consuming class. *)
Lemma ends_consumed (P : N -> Prop) r :
  consumes_within P r ->
  forall s s', s' ∈ ends r s -> exists pre, s = pre ++ s' /\ Forall P pre.
Proof.
  induction r as [|p|r1 IH1 r2 IH2|r1 IH1 r2 IH2|r1 IH1|r1 IH1];
    intros Hok s s' Hin.
  - apply ends_Empty in Hin as ->. by exists [].
  - apply ends_Class in Hin as (c & -> & Hc).
    exists [c]. split; [reflexivity|]. repeat constructor. by apply Hok.
  - destruct Hok as [Hok1 Hok2].
    apply ends_Cat in Hin as (m & Hm & Hin).
    destruct (IH1 Hok1 _ _ Hm) as (pre1 & -> & HP1).
    destruct (IH2 Hok2 _ _ Hin) as (pre2 & -> & HP2).
    exists (pre1 ++ pre2). split; [by rewrite app_assoc|].
    by apply Forall_app.
  - destruct Hok as [Hok1 Hok2].
    apply ends_Or in Hin as [Hin|Hin]; eauto.
  - apply ends_Many in Hin. simpl in Hok.
    induction Hin as [s|s m s' Hm _ _ IH].
    + by exists [].
    + destruct (IH1 Hok _ _ Hm) as (pre1 & -> & HP1).
      destruct IH as (pre2 & -> & HP2).
      exists (pre1 ++ pre2). split; [by rewrite app_assoc|].
      by apply Forall_app.
  - apply ends_NotAhead in Hin as [-> _]. by exists [].
Qed.

Lemma fold_case_cases c :
  (fold_case c = c /\ ~ (65 <= c <= 90)%N)
  \/ (fold_case c = (c + 32)%N /\ (65 <= c <= 90)%N).
Proof.
  unfold fold_case, between.
  destruct (N.leb_spec 65 c), (N.leb_spec c 90); simpl; lia.
Qed.

(** Case analysis on the comparisons of code units in sight. *)
Ltac compare_units :=
  repeat match goal with
  | |- context [(?x <=? ?y)%N] => destruct (N.leb_spec x y); simpl
  | |- context [(?x =? ?y)%N] => destruct (N.eqb_spec x y); simpl
  | H : context [(?x <=? ?y)%N] |- _ =>
      destruct (N.leb_spec x y); simpl in H
  | H : context [(?x =? ?y)%N] |- _ =>
      destruct (N.eqb_spec x y); simpl in H
  end; try reflexivity; try discriminate; try lia.

(** A literal character other than a blank is matched by no blank. *)
Lemma is_char_not_blank a n :
  blank (N_of_ascii a) = false ->
  is_char a n = true -> blank n = false.
Proof.
  unfold is_char. intros Ha Hn. apply N.eqb_eq in Hn.
  unfold blank, between in *.
  destruct (fold_case_cases n) as [[Hf Hr]|[Hf Hr]],
    (fold_case_cases (N_of_ascii a)) as [[Hg Hs]|[Hg Hs]];
    rewrite Hf, Hg in Hn; compare_units.
Qed.

Lemma between_not_blank lo hi n :
  (33 <= lo)%N -> (hi <= 159)%N ->
  between lo hi n = true -> blank n = false.
Proof. unfold blank, between. intros Hlo Hhi Hn. compare_units. Qed.

Lemma digit_not_blank n : digit n = true -> blank n = false.
Proof. apply between_not_blank; lia. Qed.

Lemma nonspace_not_blank n : nonspace n = true -> blank n = false.
Proof.
  unfold nonspace, space, blank, between. intros Hn.
  destruct (N.leb_spec 9 n), (N.leb_spec n 13); simpl in *;
    try discriminate; try lia;
    destruct (N.eqb_spec n 32); simpl in *; try discriminate;
    destruct (N.eqb_spec n 160); simpl in *; try discriminate; reflexivity.
Qed.

Lemma alnum_not_blank n : Url.alnum n = true -> blank n = false.
Proof.
  unfold Url.alnum, digit, blank, between. intros Hn.
  destruct (fold_case_cases n) as [[Hf Hr]|[Hf Hr]]; rewrite Hf in Hn;
    compare_units.
Qed.

Lemma alpha_not_blank n : Url.alpha n = true -> blank n = false.
Proof.
  unfold Url.alpha, blank, between. intros Hn.
  destruct (fold_case_cases n) as [[Hf Hr]|[Hf Hr]]; rewrite Hf in Hn;
    compare_units.
Qed.

(** The pattern consumes no blank. *)
Lemma url_pattern_not_blank :
  consumes_within (fun c => blank c = false) Url.url_pattern.
Proof.
  unfold Url.url_pattern, Url.scheme, Url.userinfo, Url.host, Url.port,
    Url.resource, Url.ip_address, Url.domain_name, Url.label,
    Url.first_octet, Url.middle_octets, Url.last_octet, Url.dot_digits,
    Url.Dot, Url.D, Url.S_, Url.In_, Url.Ch, Some_, Opt, AtLeast, Range.
  simpl.
  repeat split; try exact I; intros c Hc;
    first
      [ by apply digit_not_blank
      | by apply nonspace_not_blank
      | by apply alnum_not_blank
      | by apply alpha_not_blank
      | by (eapply is_char_not_blank; [|exact Hc])
      | by (eapply between_not_blank; [| |exact Hc]; lia)
      | by (apply orb_true_iff in Hc as [Hc|Hc];
            [apply orb_true_iff in Hc as [Hc|Hc]|];
            (eapply is_char_not_blank; [|exact Hc])) ].
Qed.

Lemma fold_case_idem c : fold_case (fold_case c) = fold_case c.
Proof.
  destruct (fold_case_cases c) as [[Hf Hr]|[Hf Hr]]; rewrite Hf.
  - exact Hf.
  - destruct (fold_case_cases (c + 32)) as [[Hh _]|[_ Ht]]; [exact Hh | lia].
Qed.

Lemma is_char_fold a c : is_char a (fold_case c) = is_char a c.
Proof. unfold is_char. by rewrite fold_case_idem. Qed.

Lemma between_fold lo hi c :
  (hi <= 64)%N -> between lo hi (fold_case c) = between lo hi c.
Proof.
  intros Hhi. unfold between.
  destruct (fold_case_cases c) as [[Hf Hr]|[Hf Hr]]; rewrite Hf;
    [reflexivity|compare_units].
Qed.

Lemma digit_fold c : digit (fold_case c) = digit c.
Proof. apply between_fold. lia. Qed.

Lemma nonspace_fold c : nonspace (fold_case c) = nonspace c.
Proof.
  destruct (fold_case_cases c) as [[Hf Hr]|[Hf Hr]]; rewrite Hf;
    [reflexivity|].
  unfold nonspace, space, between. f_equal.
  repeat match goal with
  | |- context [(?x <=? ?y)%N] => destruct (N.leb_spec x y); try lia
  | |- context [(?x =? ?y)%N] => destruct (N.eqb_spec x y); try lia
  end; reflexivity.
Qed.

Lemma alpha_fold c : Url.alpha (fold_case c) = Url.alpha c.
Proof.
  unfold Url.alpha. rewrite fold_case_idem. f_equal.
  destruct (fold_case_cases c) as [[Hf Hr]|[Hf Hr]]; rewrite Hf;
    [reflexivity|].
  unfold between. compare_units.
Qed.

Lemma alnum_fold c : Url.alnum (fold_case c) = Url.alnum c.
Proof.
  unfold Url.alnum. rewrite fold_case_idem, digit_fold. do 2 f_equal.
  destruct (fold_case_cases c) as [[Hf Hr]|[Hf Hr]]; rewrite Hf;
    [reflexivity|].
  unfold between. compare_units.
Qed.

(** The pattern is compiled with the [i] flag: each of its classes
    ignores letter case. *)
Lemma url_pattern_ignores_case : ignores_case Url.url_pattern.
Proof.
  unfold Url.url_pattern, Url.scheme, Url.userinfo, Url.host, Url.port,
    Url.resource, Url.ip_address, Url.domain_name, Url.label,
    Url.not_private_a, Url.not_private_b, Url.not_private_c,
    Url.first_octet, Url.middle_octets, Url.last_octet, Url.dot_digits,
    Url.Dot, Url.D, Url.S_, Url.In_, Url.Ch, Some_, Opt, AtLeast, Range.
  simpl.
  repeat split; try exact I; intros c;
    first
      [ apply is_char_fold
      | apply digit_fold
      | apply nonspace_fold
      | apply alnum_fold
      | apply alpha_fold
      | by (apply between_fold; lia)
      | by rewrite !is_char_fold ].
Qed.

(** Matching the case-folded input gives the case-folded remainders. *)
Lemma ends_fold r :
  ignores_case r ->
  forall s t,
    t ∈ ends r (map fold_case s) <->
    exists t0, t0 ∈ ends r s /\ t = map fold_case t0.
Proof.
  induction r as [|p|r1 IH1 r2 IH2|r1 IH1 r2 IH2|r1 IH1|r1 IH1];
    intros Hok s t.
  - rewrite ends_Empty. split.
    + intros ->. exists s. by rewrite ends_Empty.
    + intros (t0 & ->%ends_Empty & ->). reflexivity.
  - rewrite ends_Class. split.
    + intros (c & Hs & Hc). destruct s as [|c0 s0]; [discriminate|].
      injection Hs as <- <-. exists s0. split; [|reflexivity].
      apply ends_Class. exists c0. simpl in Hok. by rewrite <- Hok.
    + intros (t0 & (c & -> & Hc)%ends_Class & ->).
      exists (fold_case c). simpl in Hok. by rewrite Hok.
  - destruct Hok as [Hok1 Hok2]. rewrite ends_Cat. split.
    + intros (m & (m0 & Hm0 & ->)%(IH1 Hok1) & (t0 & Ht0 & ->)%(IH2 Hok2)).
      exists t0. split; [|reflexivity]. apply ends_Cat. eauto.
    + intros (t0 & (m0 & Hm0 & Ht0)%ends_Cat & ->).
      exists (map fold_case m0). split.
      * apply (IH1 Hok1). eauto.
      * apply (IH2 Hok2). eauto.
  - destruct Hok as [Hok1 Hok2]. rewrite ends_Or. split.
    + intros [(t0 & Ht0 & ->)%(IH1 Hok1)|(t0 & Ht0 & ->)%(IH2 Hok2)];
        exists t0; rewrite ends_Or; auto.
    + intros (t0 & [Ht0|Ht0]%ends_Or & ->);
        [left; apply (IH1 Hok1) | right; apply (IH2 Hok2)]; eauto.
  - simpl in Hok. rewrite ends_Many. split.
    + intros Hr. remember (map fold_case s) as x eqn:Hx.
      revert s Hx. induction Hr as [x|x m t Hm Hlt _ IH]; intros s ->.
      * exists s. split; [apply ends_Many; constructor | reflexivity].
      * apply (IH1 Hok) in Hm as (m0 & Hm0 & ->).
        destruct (IH m0 eq_refl) as (t0 & Ht0 & ->).
        exists t0. split; [|reflexivity].
        apply ends_Many. rewrite !length_map in Hlt.
        apply (rounds_more _ _ m0); [exact Hm0 | exact Hlt |].
        by apply ends_Many.
    + intros (t0 & Hr%ends_Many & ->).
      induction Hr as [s|s m t0 Hm Hlt _ IH]; [constructor|].
      apply (rounds_more _ _ (map fold_case m)).
      * apply (IH1 Hok). eauto.
      * by rewrite !length_map.
      * exact IH.
  - simpl in Hok. rewrite ends_NotAhead.
    assert (Hnil : ends r1 (map fold_case s) = [] <-> ends r1 s = []).
    { split; intros Hnil; apply elem_of_nil_inv; intros x Hx.
      - assert (map fold_case x ∈ ends r1 (map fold_case s)) as Hin
          by (apply (IH1 Hok); eauto).
        rewrite Hnil in Hin. by apply elem_of_nil in Hin.
      - apply (IH1 Hok) in Hx as (x0 & Hx0 & _).
        rewrite Hnil in Hx0. by apply elem_of_nil in Hx0. }
    split.
    + intros [-> Hn]. exists s. split; [|reflexivity].
      apply ends_NotAhead. split; [reflexivity | by apply Hnil].
    + intros (t0 & [-> Hn]%ends_NotAhead & ->).
      split; [reflexivity | by apply Hnil].
Qed.

Lemma test_fold r s :
  ignores_case r -> test r (map fold_case s) = test r s.
Proof.
  intros Hok. unfold test. apply bool_decide_ext.
  rewrite (ends_fold r Hok). split.
  - intros (t0 & Ht0 & Hnil). symmetry in Hnil.
    apply map_eq_nil in Hnil. by subst t0.
  - intros Hin. by exists [].
Qed.

End PatternFacts.

(** ** More facts: the pattern as a whole *)

(** X1. A URL with a blank in it (tab, line feed, vertical tab, form feed,
    carriage return, space, no-break space), wherever it stands, fails
    [validateUrl]; the provider throws the initialisation error on it. *)
Theorem validateUrl_rejects_blanks (url : Js.jsstring) :
  Exists (fun c => blank c = true) url ->
  Url.validateUrl url = false /\
  forall rr w,
    IdentityContextProvider rr url w = (Threw (invalid_url_message url), w).
Proof.
  intros Hblank.
  assert (Hv : Url.validateUrl url = false).
  { destruct (Url.validateUrl url) eqn:Hv; [exfalso|reflexivity].
    unfold Url.validateUrl, Regex.test in Hv.
    apply bool_decide_eq_true in Hv.
    destruct (ends_consumed _ _ url_pattern_not_blank _ _ Hv)
      as (pre & Hurl & Hpre).
    rewrite app_nil_r in Hurl. subst pre.
    apply Exists_exists in Hblank as (c & Hc & Hb).
    rewrite Forall_forall in Hpre. specialize (Hpre c Hc). simpl in Hpre.
    congruence. }
  split; [exact Hv|]. intros rr w. by apply IdentityContextProvider_invalid.
Qed.

Lemma validateUrl_rejects_blanks_witness :
  Url.validateUrl (Js.utf16 " https://example.netlify.com") = false /\
  forall rr w,
    IdentityContextProvider rr (Js.utf16 " https://example.netlify.com") w
    = (Threw (invalid_url_message (Js.utf16 " https://example.netlify.com")),
       w).
Proof.
  apply (validateUrl_rejects_blanks (Js.utf16 " https://example.netlify.com")).
  apply Exists_cons_hd. reflexivity.
Defined.

(** X2. [validateUrl] ignores the case of ASCII letters: a URL and its
    lower-cased form get the same verdict, hence so do any two URLs that
    differ in letter case only. *)
Theorem validateUrl_ignores_case (url : Js.jsstring) :
  Url.validateUrl (map Js.fold_case url) = Url.validateUrl url /\
  forall url',
    map Js.fold_case url' = map Js.fold_case url ->
    Url.validateUrl url' = Url.validateUrl url.
Proof.
  assert (Hfold : forall u,
            Url.validateUrl (map Js.fold_case u) = Url.validateUrl u).
  { intros u. unfold Url.validateUrl.
    apply test_fold, url_pattern_ignores_case. }
  split; [apply Hfold|].
  intros url' Heq. rewrite <- (Hfold url'), Heq. apply Hfold.
Qed.

(** ** More facts: the operations *)

Lemma rerender_user h : user (rerender h) = user h.
Proof. reflexivity. Qed.

Lemma render_of_hooks w h : hooks w = Some h -> render w = rerender h.
Proof. intros Hh. unfold render. by rewrite Hh. Qed.

(** X3. [signupUser] calls the backend at once and changes nothing until
    the answer comes; when the backend answers with a user, confirmed or
    not, that user becomes the current user, the listener hears it once,
    and the next render shows a logged-in user who is confirmed only if
    the backend says so; a rejection changes nothing. *)
Theorem signupUser_lifecycle
    (url : Js.jsstring) (h : Hooks)
    (email password : string) (data : JsObject) (w : World) :
  exists p w1,
    API.signupUser (hook_api url h) email password data w = (Returned p, w1) /\
    awaiting p = gotrue_signup email password data /\
    calls w1 = calls w ++ [gotrue_signup email password data] /\
    hooks w1 = hooks w /\
    notified w1 = notified w /\
    (forall u w2 h2,
       hooks w2 = Some h2 ->
       exists w3 h3,
         settle p (Fulfilled u) w2 = (Returned (Some u), w3) /\
         hooks w3 = Some h3 /\
         user h3 = Some u /\
         param h3 = param h2 /\ settings h3 = settings h2 /\
         notified w3 = notified w2 ++ [Some u] /\
         calls w3 = calls w2 /\
         API.isLoggedIn (hook_api url (render w3)) = true /\
         API.isConfirmedUser (hook_api url (render w3))
         = truthy_string (confirmed_at u)) /\
    (forall reason w2, settle p (Rejected reason) w2 = (Threw reason, w2)).
Proof.
  destruct (signupUser_routes email password data w)
    as (p & w1 & Hrun & Haw & Hful).
  exists p, w1. split; [exact Hrun|]. split; [exact Haw|].
  assert (Hw1 : w1 = (call (gotrue_signup email password data) w).2).
  { unfold signupUser, bind, ret in Hrun. simpl in Hrun. by injection Hrun. }
  subst w1. do 3 (split; [reflexivity|]). split.
  - intros u w2 h2 Hh2. rewrite Hful.
    destruct (_setUser_spec (Some u) w2 h2 Hh2)
      as (w3 & h3 & Hset & Hh3 & Hu & Hn & Hc & Hp & Hs).
    exists w3, h3. rewrite (render_of_hooks w3 h3 Hh3).
    simpl. rewrite Hu. simpl. auto 10.
  - intros reason w2. reflexivity.
Qed.

(** X4. [loginUser] passes [remember] on, [true] standing for an omitted
    one; the rest is as for a signup: nothing changes until the backend
    answers, its user then becomes the current user and the listener
    hears it once, and a rejection changes nothing. *)
Theorem loginUser_lifecycle
    (url : Js.jsstring) (h : Hooks)
    (email password : string) (remember : option bool) (w : World) :
  let sent :=
    gotrue_login email password
      (match remember with Some b => b | None => true end) in
  exists p w1,
    API.loginUser (hook_api url h) email password remember w
      = (Returned p, w1) /\
    awaiting p = sent /\
    calls w1 = calls w ++ [sent] /\
    hooks w1 = hooks w /\
    notified w1 = notified w /\
    (forall u w2 h2,
       hooks w2 = Some h2 ->
       exists w3 h3,
         settle p (Fulfilled u) w2 = (Returned (Some u), w3) /\
         hooks w3 = Some h3 /\
         user h3 = Some u /\
         param h3 = param h2 /\ settings h3 = settings h2 /\
         notified w3 = notified w2 ++ [Some u] /\
         calls w3 = calls w2) /\
    (forall reason w2, settle p (Rejected reason) w2 = (Threw reason, w2)).
Proof.
  intros sent.
  destruct (loginUser_routes email password remember w)
    as (p & w1 & Hrun & Haw & Hful).
  exists p, w1. split; [exact Hrun|].
  assert (Hsent : gotrue_login email password (default true remember) = sent)
    by (unfold sent; by destruct remember).
  rewrite Hsent in Haw. split; [exact Haw|].
  assert (Hw1 : w1 = (call sent w).2).
  { unfold loginUser, bind, ret in Hrun. simpl in Hrun. rewrite Hsent in Hrun.
    by injection Hrun. }
  subst w1. do 3 (split; [reflexivity|]). split.
  - intros u w2 h2 Hh2. rewrite Hful.
    destruct (_setUser_spec (Some u) w2 h2 Hh2)
      as (w3 & h3 & Hset & Hh3 & Hu & Hn & Hc & Hp & Hs).
    exists w3, h3. auto 10.
  - intros reason w2. reflexivity.
Qed.

(** X5. [updateUser] on a render with current user [u0] sends the fields to
    [u0.update]; the user the backend answers with replaces the current
    user and the listener hears it once; after the next render an update
    goes to that new user. *)
Theorem updateUser_lifecycle
    (url : Js.jsstring) (w w1 : World) (u0 : User) (fields : JsObject) :
  wf w ->
  user (render w) = Some u0 ->
  exists p w2,
    API.updateUser (hook_api url (render w)) fields w1 = (Returned p, w2) /\
    awaiting p = user_update u0 fields /\
    calls w2 = calls w1 ++ [user_update u0 fields] /\
    hooks w2 = hooks w1 /\
    notified w2 = notified w1 /\
    (forall u' w3 h3,
       wf w3 -> hooks w3 = Some h3 ->
       exists w4 h4,
         settle p (Fulfilled u') w3 = (Returned (Some u'), w4) /\
         hooks w4 = Some h4 /\
         user h4 = Some u' /\
         notified w4 = notified w3 ++ [Some u'] /\
         forall fields' w5,
           exists p' w6,
             API.updateUser (hook_api url (render w4)) fields' w5
               = (Returned p', w6) /\
             awaiting p' = user_update u' fields') /\
    (forall reason w3, settle p (Rejected reason) w3 = (Threw reason, w3)).
Proof.
  intros Hw Hu0.
  destruct (render_api w url Hw) as (_ & _ & Hupd & _).
  assert (Hapi : API.user (hook_api url (render w)) = Some u0) by exact Hu0.
  rewrite Hupd, Hapi.
  destruct (updateUser_routes u0 fields w1) as (p & w2 & Hrun & Haw & Hful).
  exists p, w2. split; [exact Hrun|]. split; [exact Haw|].
  assert (Hw2 : w2 = (call (user_update u0 fields) w1).2).
  { unfold updateUser, bind, ret in Hrun. simpl in Hrun. by injection Hrun. }
  subst w2. do 3 (split; [reflexivity|]). split.
  - intros u' w3 h3 Hw3 Hh3. rewrite Hful.
    destruct (_setUser_spec (Some u') w3 h3 Hh3)
      as (w4 & h4 & Hset & Hh4 & Hu & Hn & _).
    exists w4, h4. repeat (split; [assumption|]).
    intros fields' w5.
    assert (Hw4 : wf w4).
    { replace w4 with (_setUser (Some u') w3).2 by (by rewrite Hset).
      by apply _setUser_keeps_wf. }
    destruct (render_api w4 url Hw4) as (_ & _ & Hupd4 & _).
    assert (Hapi4 : API.user (hook_api url (render w4)) = Some u').
    { simpl. rewrite (render_of_hooks w4 h4 Hh4). exact Hu. }
    rewrite Hupd4, Hapi4.
    destruct (updateUser_routes u' fields' w5) as (p' & w6 & Hrun' & Haw' & _).
    eauto.
  - intros reason w3. reflexivity.
Qed.

Lemma updateUser_lifecycle_witness :
  let w := with_hooks (initial_world (Some alice) home)
             (Some (after_mount (Some alice) defaultParam)) in
  exists p w2,
    API.updateUser (hook_api site (render w)) ∅ w = (Returned p, w2) /\
    awaiting p = user_update alice ∅ /\
    calls w2 = calls w ++ [user_update alice ∅] /\
    hooks w2 = hooks w /\
    notified w2 = notified w /\
    (forall u' w3 h3,
       wf w3 -> hooks w3 = Some h3 ->
       exists w4 h4,
         settle p (Fulfilled u') w3 = (Returned (Some u'), w4) /\
         hooks w4 = Some h4 /\
         user h4 = Some u' /\
         notified w4 = notified w3 ++ [Some u'] /\
         forall fields' w5,
           exists p' w6,
             API.updateUser (hook_api site (render w4)) fields' w5
               = (Returned p', w6) /\
             awaiting p' = user_update u' fields') /\
    (forall reason w3, settle p (Rejected reason) w3 = (Threw reason, w3)).
Proof.
  apply (updateUser_lifecycle site
           (with_hooks (initial_world (Some alice) home)
              (Some (after_mount (Some alice) defaultParam)))
           (with_hooks (initial_world (Some alice) home)
              (Some (after_mount (Some alice) defaultParam)))
           alice ∅).
  - intros h Hh. simpl in Hh. injection Hh as <-. repeat split.
  - reflexivity.
Defined.

(** X7. [requestPasswordRecovery], [getFreshJWT] and the four verbs of
    [authedFetch] never touch the identity: whether they throw or call,
    the hook state and the listener log are as before, and when their
    promise settles, fulfilled or rejected, the world stays as it is.
    The recovery request has no precondition, and a fresh token is handed
    on as the backend gave it. *)
Theorem readonly_operations_leave_identity
    (url : Js.jsstring) (h : Hooks) (email : string)
    (verb : Verb) (endpoint : string) (obj : JsObject) (w : World) :
  let api := hook_api url h in
  (exists p w1,
     API.requestPasswordRecovery api email w = (Returned p, w1) /\
     awaiting p = gotrue_requestPasswordRecovery email /\
     hooks w1 = hooks w /\ notified w1 = notified w /\
     forall s w2, (settle p s w2).2 = w2) /\
  (forall r w1,
     API.getFreshJWT api w = (r, w1) ->
     hooks w1 = hooks w /\ notified w1 = notified w /\
     forall p, r = Returned p ->
       (forall jwt w2, settle p (Fulfilled jwt) w2 = (Returned jwt, w2)) /\
       (forall s w2, (settle p s w2).2 = w2)) /\
  (forall r w1,
     send verb (API.authedFetch api) endpoint obj w = (r, w1) ->
     hooks w1 = hooks w /\ notified w1 = notified w /\
     forall p, r = Returned p -> forall s w2, (settle p s w2).2 = w2).
Proof.
  intros api. split; [|split].
  - eexists _, _. split; [reflexivity|]. do 3 (split; [reflexivity|]).
    intros [x|reason] w2; reflexivity.
  - intros r w1. subst api. simpl.
    destruct ((cb_getFreshJWT h).2) as [u|]; simpl; intros [= <- <-].
    + do 2 (split; [reflexivity|]). intros p [= <-].
      split; [reflexivity|]. intros [x|reason] w2; reflexivity.
    + do 2 (split; [reflexivity|]). intros p Hp. discriminate Hp.
  - intros r w1 Hsend.
    assert (Hg : send verb (API.authedFetch api) endpoint obj
                 = genericAuthedFetch (memo_authedFetch h).2 (method_of verb)
                     endpoint obj) by (by destruct verb).
    rewrite Hg in Hsend. unfold genericAuthedFetch in Hsend.
    destruct (live_access_token (memo_authedFetch h).2) as [tk|].
    + unfold bind, ret in Hsend. simpl in Hsend. injection Hsend as <- <-.
      do 2 (split; [reflexivity|]). intros p [= <-] [res|reason] w2;
        [|reflexivity].
      simpl. unfold bind, ret.
      destruct (finalObj tk (method_of verb) obj !! "headers")
        as [[| |headers]|]; try reflexivity.
      destruct (decide (headers !! "Content-Type" = Some "application/json"));
        reflexivity.
    + injection Hsend as <- <-.
      do 2 (split; [reflexivity|]). intros p Hp. discriminate Hp.
Qed.

(** X9. How [authedFetch] reads the answer, in terms of the caller's
    options. With a live token the request is always sent. Without
    [headers] of the caller's own the answer is parsed as JSON; with own
    headers it is parsed only if they say [Content-Type:
    application/json], else the raw response is handed on; a [headers]
    that is a string gives the raw response; a [headers] property holding
    [undefined] makes the promise reject with a TypeError once the
    answer is there, the request having been sent. *)
Theorem genericAuthedFetch_reads_response
    (user : option User) (tk method endpoint : string)
    (obj : JsObject) (w : World) :
  live_access_token user = Some tk ->
  exists p w1,
    genericAuthedFetch user method endpoint obj w = (Returned p, w1) /\
    calls w1 = calls w ++ [fetch endpoint (finalObj tk method obj)] /\
    forall res w2,
      (obj !! "headers" = None ->
       settle p (Fulfilled res) w2 = (Returned (json_of res), w2)) /\
      (forall headers,
         obj !! "headers" = Some (JObject headers) ->
         settle p (Fulfilled res) w2 =
         (Returned
            (if decide (headers !! "Content-Type" = Some "application/json")
             then json_of res else response res), w2)) /\
      (forall text,
         obj !! "headers" = Some (JString text) ->
         settle p (Fulfilled res) w2 = (Returned (response res), w2)) /\
      (obj !! "headers" = Some JUndefined ->
       settle p (Fulfilled res) w2 =
       (Threw (Js.utf16
                 "TypeError: Cannot read property 'Content-Type' of undefined"),
        w2)).
Proof.
  intros Htk. unfold genericAuthedFetch. rewrite Htk.
  eexists _, _. split; [reflexivity|]. split; [reflexivity|].
  intros res w2.
  assert (Hown : forall v, obj !! "headers" = Some v ->
                 finalObj tk method obj !! "headers" = Some v)
    by (intros v; apply finalObj_obj_wins).
  split; [|split; [|split]].
  - intros Hnone.
    destruct (finalObj_default_headers tk method obj Hnone)
      as (headers & Hh & _ & Hct).
    simpl. unfold bind, ret. rewrite Hh.
    destruct (decide (headers !! "Content-Type" = Some "application/json"));
      [reflexivity | contradiction].
  - intros headers Hobj. simpl. unfold bind, ret. rewrite (Hown _ Hobj).
    destruct (decide (headers !! "Content-Type" = Some "application/json"));
      reflexivity.
  - intros text Hobj. simpl. unfold bind, ret. by rewrite (Hown _ Hobj).
  - intros Hobj. simpl. unfold bind, ret. by rewrite (Hown _ Hobj).
Qed.

Lemma genericAuthedFetch_reads_response_witness :
  let obj : JsObject := {[ "headers" := JUndefined ]} in
  exists p w1,
    genericAuthedFetch (Some alice) "POST" "/api/items" obj
      (initial_world (Some alice) home) = (Returned p, w1) /\
    calls w1 =
      calls (initial_world (Some alice) home)
      ++ [fetch "/api/items" (finalObj "eyJhbGciOi" "POST" obj)] /\
    forall res w2,
      (obj !! "headers" = None ->
       settle p (Fulfilled res) w2 = (Returned (json_of res), w2)) /\
      (forall headers,
         obj !! "headers" = Some (JObject headers) ->
         settle p (Fulfilled res) w2 =
         (Returned
            (if decide (headers !! "Content-Type" = Some "application/json")
             then json_of res else response res), w2)) /\
      (forall text,
         obj !! "headers" = Some (JString text) ->
         settle p (Fulfilled res) w2 = (Returned (response res), w2)) /\
      (obj !! "headers" = Some JUndefined ->
       settle p (Fulfilled res) w2 =
       (Threw (Js.utf16
                 "TypeError: Cannot read property 'Content-Type' of undefined"),
        w2)).
Proof.
  apply (genericAuthedFetch_reads_response (Some alice) "eyJhbGciOi" "POST"
           "/api/items" {[ "headers" := JUndefined ]}
           (initial_world (Some alice) home)).
  reflexivity.
Defined.

(** ** More facts: renders and effects *)

(** X12. With [enableRunRoutes] off the mount never runs the router, whatever
    the router is: the location stays, no promise of the router is left,
    the stored [TokenParam] is the default, and the settings fetch is the
    only call. *)
Theorem mount_without_router
    (rr : (option User -> Eff (option User)) ->
          Eff (TokenParam.t * option (Promise User (option User))))
    (url : Js.jsstring) (currentUser : option User) (loc : Location)
    (made : list Call) (told : list (option User)) :
  let w := {| session := currentUser; location := loc; calls := made;
              notified := told; hooks := None |} in
  exists fetched w',
    useNetlifyIdentity rr url false w =
    (Returned (hook_api url (first_render currentUser),
               {| routes_promise := None;
                  settings_promise := Some fetched |}), w') /\
    awaiting fetched = gotrue_settings /\
    location w' = loc /\
    calls w' = made ++ [gotrue_settings] /\
    notified w' = told /\
    hooks w' = Some (after_mount currentUser defaultParam).
Proof.
  intros w. eexists _, _. split; [reflexivity|].
  split; [reflexivity|]. split; [reflexivity|].
  split; [reflexivity|]. split; reflexivity.
Qed.

Lemma rerender_idempotent h :
  mounted h -> rerender (rerender h) = rerender h.
Proof.
  intros (H1 & H2 & H3 & _).
  destruct h as [u p st [a1 b1] [a2 b2] [a3 b3] [[] m] e1 e2].
  simpl in *. subst b1 b2 b3. unfold rerender, useMemo. simpl.
  destruct (decide (a1 = u)), (decide (a2 = u)), (decide (a3 = u)); simpl;
    repeat (case_decide; simpl); congruence.
Qed.

(** X14. Once mounted, the hook can render as often as it likes, with any
    router: the first further render settles the cells and every render
    after that changes nothing at all; no render runs an effect, calls
    the backend or the listener, moves the location or touches the three
    state slots. *)
Theorem renders_after_mount_are_idle
    (rr : (option User -> Eff (option User)) ->
          Eff (TokenParam.t * option (Promise User (option User))))
    (url : Js.jsstring) (enable : bool) (n : nat) (w : World) (h : Hooks) :
  hooks w = Some h ->
  mounted h ->
  let w' := renders rr url enable (S n) w in
  w' = with_hooks w (Some (rerender h)) /\
  useNetlifyIdentity rr url enable w' =
    (Returned (hook_api url (rerender h),
               {| routes_promise := None; settings_promise := None |}), w') /\
  calls w' = calls w /\ notified w' = notified w /\
  location w' = location w /\
  user (rerender h) = user h /\ param (rerender h) = param h /\
  settings (rerender h) = settings h.
Proof.
  intros Hh Hm w'.
  assert (Hall : forall k w0,
            hooks w0 = Some h \/ hooks w0 = Some (rerender h) ->
            renders rr url enable (S k) w0
            = with_hooks w0 (Some (rerender h))).
  { induction k as [|k IH]; intros w0 Hw0.
    - simpl. destruct Hw0 as [Hw0|Hw0].
      + by rewrite (useNetlifyIdentity_rerender rr url enable w0 h Hw0 Hm).
      + rewrite (useNetlifyIdentity_rerender rr url enable w0 _ Hw0
                   (rerender_mounted h Hm)).
        simpl. by rewrite rerender_idempotent.
    - change (renders rr url enable (S (S k)) w0)
        with (renders rr url enable (S k)
                (useNetlifyIdentity rr url enable w0).2).
      rewrite IH.
      + destruct Hw0 as [Hw0|Hw0].
        * by rewrite (useNetlifyIdentity_rerender rr url enable w0 h Hw0 Hm).
        * by rewrite (useNetlifyIdentity_rerender rr url enable w0 _ Hw0
                        (rerender_mounted h Hm)).
      + right. destruct Hw0 as [Hw0|Hw0].
        * by rewrite (useNetlifyIdentity_rerender rr url enable w0 h Hw0 Hm).
        * rewrite (useNetlifyIdentity_rerender rr url enable w0 _ Hw0
                     (rerender_mounted h Hm)).
          simpl. by rewrite rerender_idempotent. }
  assert (Hw' : w' = with_hooks w (Some (rerender h)))
    by (apply Hall; by left).
  split; [exact Hw'|]. rewrite Hw'. split.
  - rewrite (useNetlifyIdentity_rerender rr url enable
               (with_hooks w (Some (rerender h))) (rerender h) eq_refl
               (rerender_mounted h Hm)).
    simpl. by rewrite rerender_idempotent.
  - repeat split.
Qed.

Lemma renders_after_mount_are_idle_witness :
  let w := with_hooks (initial_world (Some alice) home)
             (Some (after_mount (Some alice) defaultParam)) in
  let h := after_mount (Some alice) defaultParam in
  let w' := renders (stub_router defaultParam None) site true 3 w in
  w' = with_hooks w (Some (rerender h)) /\
  useNetlifyIdentity (stub_router defaultParam None) site true w' =
    (Returned (hook_api site (rerender h),
               {| routes_promise := None; settings_promise := None |}), w') /\
  calls w' = calls w /\ notified w' = notified w /\
  location w' = location w /\
  user (rerender h) = user h /\ param (rerender h) = param h /\
  settings (rerender h) = settings h.
Proof.
  apply (renders_after_mount_are_idle (stub_router defaultParam None) site
           true 2
           (with_hooks (initial_world (Some alice) home)
              (Some (after_mount (Some alice) defaultParam)))
           (after_mount (Some alice) defaultParam)).
  - reflexivity.
  - repeat split.
Defined.

(** X13. What the mount keeps of the router's answer, for a router that
    answers at once: the answer is stored when its token is a non-empty
    string or its error is set, and dropped for the default otherwise,
    whatever its [type] and [status]; the next render exposes what was
    stored. *)
Theorem mount_stores_answer_with_token_or_error
    (answer : TokenParam.t) (pending : option (Promise User (option User)))
    (url : Js.jsstring) (currentUser : option User) (loc : Location) :
  exists api fetched w',
    useNetlifyIdentity (stub_router answer pending) url true
      (initial_world currentUser loc)
    = (Returned (api, {| routes_promise := pending;
                         settings_promise := Some fetched |}), w') /\
    API.param api = defaultParam /\
    exists stored,
      param <$> hooks w' = Some stored /\
      API.param (hook_api url (render w')) = stored /\
      (forall c rest,
         TokenParam.token answer = Some (String c rest) -> stored = answer) /\
      (forall e, TokenParam.error answer = Some e -> stored = answer) /\
      (TokenParam.token answer = None \/ TokenParam.token answer = Some "" ->
       TokenParam.error answer = None -> stored = defaultParam).
Proof.
  destruct answer as [tk ty err st].
  destruct tk as [[|c rest]|], err as [e|];
    (eexists _, _, _; split; [reflexivity|]; split; [reflexivity|];
     eexists; split; [reflexivity|]; split; [reflexivity|];
     simpl; split; [|split]).
  all: try (intros; reflexivity).
  all: try (intros ? ? Htk; discriminate Htk).
  all: try (intros ? He; discriminate He).
  all: intros [Htk|Htk] Herr; try discriminate Htk; discriminate Herr.
Qed.

(** ** More facts: what holds all along *)

Lemma last_told_snoc w v told :
  notified w = told ++ [v] -> last_told w = v.
Proof. intros Hn. unfold last_told. by rewrite Hn, last_snoc. Qed.

(** The mount with a quiet router: the hook ends up mounted on the
    persisted session, and nobody is told. *)
Lemma quiet_mount rr url enable w :
  quiet_router rr ->
  hooks w = None ->
  exists r w' p,
    useNetlifyIdentity rr url enable w = (Returned r, w') /\
    hooks w' = Some (after_mount (session w) p) /\
    notified w' = notified w /\
    session w' = session w.
Proof.
  intros Hquiet Hh.
  unfold useNetlifyIdentity, render. rewrite Hh.
  unfold bind at 1. unfold runRoutes_effect, effect_due. simpl.
  unfold bind at 1. simpl.
  destruct enable.
  - unfold bind at 1.
    match goal with
    | |- context [rr _setUser ?x] =>
        destruct (Hquiet _setUser x) as (r & w1 & Hrr & Hh1 & Hn1 & Hs1)
    end.
    rewrite Hrr. simpl in Hh1, Hn1, Hs1.
    destruct w1 as [s1 l1 c1 n1 h1]. simpl in Hh1, Hn1, Hs1. subst s1 n1 h1.
    destruct (truthy_string (TokenParam.token r.1)
              || truthy (TokenParam.error r.1));
      simpl; eexists _, _, _; (split; [reflexivity|]); repeat split.
  - simpl. eexists _, _, _. split; [reflexivity|]. repeat split.
Qed.

Lemma stub_router_quiet answer pending :
  quiet_router (stub_router answer pending).
Proof. intros k w. eexists _, _. split; [reflexivity|]. repeat split. Qed.

Lemma runRoutes_quiet prec : quiet_router (runRoutes prec).
Proof.
  intros k w. destruct (runRoutes_run prec k w) as (pending & Hrun & _).
  eexists _, _. split; [exact Hrun|]. repeat split.
Qed.

(** X15. As long as the consumers leave the raw [setUser] alone and the
    router is quiet, the user slot is what the listener heard last, and
    the persisted session while the listener has heard nothing: state and
    listener never disagree. *)
Theorem user_slot_is_last_told
    (rr : (option User -> Eff (option User)) ->
          Eff (TokenParam.t * option (Promise User (option User))))
    (url : Js.jsstring) (enable : bool)
    (currentUser : option User) (loc : Location) (w : World) :
  quiet_router rr ->
  rtc (event rr url enable) (initial_world currentUser loc) w ->
  session w = currentUser /\
  (hooks w = None -> notified w = []) /\
  (forall h, hooks w = Some h -> user h = last_told w).
Proof.
  intros Hquiet Hsteps.
  assert (Hinv : wf w /\ session w = currentUser /\
                 (hooks w = None -> notified w = []) /\
                 (forall h, hooks w = Some h -> user h = last_told w));
    [|tauto].
  revert w Hsteps. apply rtc_ind_r.
  - split; [apply wf_initial|]. split; [reflexivity|].
    split; [reflexivity | discriminate].
  - intros y z _ Hev (Hwf & Hs & Hnone & Hsome).
    destruct Hev as [w|c w|v w h Hh|v w].
    + destruct (hooks w) as [h0|] eqn:Hh.
      * rewrite (useNetlifyIdentity_rerender _ url enable w h0 Hh (Hwf h0 Hh)).
        simpl. split; [apply with_hooks_wf, rerender_mounted, (Hwf h0 Hh)|].
        split; [exact Hs|]. split; [discriminate|].
        intros h [= <-]. exact (Hsome h0 eq_refl).
      * destruct (quiet_mount rr url enable w Hquiet Hh)
          as (r & w' & p & Hrun & Hhooks & Hn' & Hs').
        rewrite Hrun. simpl.
        split; [intros h; rewrite Hhooks; intros [= <-];
                apply after_mount_mounted|].
        split; [congruence|]. split; [rewrite Hhooks; discriminate|].
        rewrite Hhooks. intros h [= <-]. simpl.
        unfold last_told. rewrite Hs', Hn', (Hnone eq_refl). reflexivity.
    + split; [exact Hwf|]. split; [exact Hs|]. split; [exact Hnone|].
      exact Hsome.
    + split; [by apply _setUser_keeps_wf|].
      rewrite _setUser_run. simpl. rewrite Hh. simpl.
      split; [exact Hs|]. split; [discriminate|].
      intros h' [= <-]. simpl. symmetry.
      by apply (last_told_snoc _ v (notified w)).
    + split; [by apply modify_hooks_keeps_wf|]. simpl.
      split; [exact Hs|].
      destruct (hooks w) as [h0|] eqn:Hh; simpl.
      * split; [discriminate|]. intros h [= <-]. simpl.
        exact (Hsome h0 eq_refl).
      * split; [intros _; by apply Hnone | discriminate].
Qed.

Lemma user_slot_is_last_told_witness :
  let rr := stub_router defaultParam None in
  let w1 := (useNetlifyIdentity rr site true (initial_world None home)).2 in
  let w2 := (_setUser (Some alice) w1).2 in
  let w3 := (_setUser None w2).2 in
  session w3 = None /\
  (hooks w3 = None -> notified w3 = []) /\
  (forall h, hooks w3 = Some h -> user h = last_told w3).
Proof.
  cbv zeta.
  apply (user_slot_is_last_told (stub_router defaultParam None) site true
           None home).
  - intros k w. eexists _, _. split; [reflexivity|]. repeat split.
  - eapply rtc_l; [apply event_render|].
    eapply rtc_l; [eapply (event_user _ _ _ (Some alice)); reflexivity|].
    apply rtc_once. eapply (event_user _ _ _ None); reflexivity.
Defined.

(** X10. In every world a component can reach, each verb of [authedFetch]
    behaves as [genericAuthedFetch] on the user the backend client had
    persisted at mount: the current user slot plays no part, so without a
    persisted token every authenticated fetch throws "no user token
    found", logged in or not. *)
Theorem authedFetch_keeps_first_user
    (prec : Precedence) (url : Js.jsstring) (enable : bool) (w : World)
    (verb : Verb) (endpoint : string) (obj : JsObject) (w' : World) :
  reachable prec url enable w ->
  let request := send verb (API.authedFetch (hook_api url (render w))) in
  request endpoint obj w'
  = genericAuthedFetch (session w) (method_of verb) endpoint obj w' /\
  (live_access_token (session w) = None ->
   request endpoint obj w' = (Threw errors.noTokenFound, w')).
Proof.
  intros Hreach request.
  assert (Hheld : (memo_authedFetch (render w)).2 = session w).
  { unfold render. destruct (hooks w) as [h|] eqn:Hh; [|reflexivity].
    rewrite rerender_keeps_authedFetch.
    by apply (reachable_authedFetch_user prec url enable). }
  assert (Hreq : request endpoint obj w'
                 = genericAuthedFetch (session w) (method_of verb)
                     endpoint obj w').
  { subst request. rewrite <- Hheld. by destruct verb. }
  split; [exact Hreq|].
  intros Hnone. rewrite Hreq. by apply genericAuthedFetch_no_token.
Qed.

Lemma authedFetch_keeps_first_user_witness :
  let w1 := (useNetlifyIdentity (runRoutes error_first) site true
               (initial_world None home)).2 in
  let w2 := (_setUser (Some alice) w1).2 in
  let request := send GET (API.authedFetch (hook_api site (render w2))) in
  request "/api/items" ∅ w2
  = genericAuthedFetch (session w2) (method_of GET) "/api/items" ∅ w2 /\
  (live_access_token (session w2) = None ->
   request "/api/items" ∅ w2 = (Threw errors.noTokenFound, w2)).
Proof.
  cbv zeta.
  apply (authedFetch_keeps_first_user error_first site true).
  exists None, home.
  eapply rtc_l; [apply step_render|].
  apply rtc_once. apply step__setUser.
Defined.

(** X6. A login followed by a logout: the logout goes to the user who has
    just logged in, and once both promises are fulfilled nobody is logged
    in, the listener has heard exactly that user and then the absent
    value, the backend has seen exactly the login and that user's logout,
    and the [TokenParam] and settings are as before. *)
Theorem login_then_logout
    (url : Js.jsstring) (w : World) (h : Hooks)
    (email password : string) (remember : option bool) (u : User) :
  hooks w = Some h ->
  mounted h ->
  exists p1 w1 w2 p2 w3 w4,
    API.loginUser (hook_api url (render w)) email password remember (commit w)
      = (Returned p1, w1) /\
    settle p1 (Fulfilled u) w1 = (Returned (Some u), w2) /\
    API.logoutUser (hook_api url (render w2)) (commit w2) = (Returned p2, w3) /\
    awaiting p2 = user_logout u /\
    settle p2 (Fulfilled tt) w3 = (Returned None, w4) /\
    user_slot w4 = Some None /\
    notified w4 = notified w ++ [Some u; None] /\
    calls w4 =
      calls w ++ [gotrue_login email password (default true remember);
                  user_logout u] /\
    param <$> hooks w4 = Some (param h) /\
    settings <$> hooks w4 = Some (settings h) /\
    API.isLoggedIn (hook_api url (render w4)) = false /\
    forall w5,
      API.logoutUser (hook_api url (render w4)) w5
      = (Threw errors.noUserFound, w5).
Proof.
  intros Hh Hm.
  assert (Hw0 : wf (commit w)).
  { unfold commit. apply with_hooks_wf. rewrite (render_of_hooks w h Hh).
    by apply rerender_mounted. }
  destruct (loginUser_routes email password remember (commit w))
    as (p1 & w1 & Hlogin & _ & Hful1).
  assert (Hw1 : w1 = (call (gotrue_login email password
                              (default true remember)) (commit w)).2).
  { unfold loginUser, bind, ret in Hlogin. simpl in Hlogin.
    by injection Hlogin. }
  assert (Hwf1 : wf w1) by (subst w1; exact Hw0).
  assert (Hh1 : hooks w1 = Some (rerender h)).
  { subst w1. simpl. by rewrite (render_of_hooks w h Hh). }
  destruct (_setUser_spec (Some u) w1 _ Hh1)
    as (w2 & h2 & Hset & Hh2 & Hu2 & Hn2 & Hc2 & Hp2 & Hs2).
  assert (Hwf2 : wf w2).
  { replace w2 with (_setUser (Some u) w1).2 by (by rewrite Hset).
    by apply _setUser_keeps_wf. }
  destruct (render_api w2 url Hwf2) as (_ & Hlog & _).
  assert (Hapi2 : API.user (hook_api url (render w2)) = Some u).
  { simpl. rewrite (render_of_hooks w2 h2 Hh2). exact Hu2. }
  rewrite Hapi2 in Hlog.
  destruct (logoutUser_routes u (commit w2))
    as (p2 & w3 & Hlogout & Haw & Hc3 & Hh3 & Hn3 & Hful2 & _).
  assert (Hh3' : hooks w3 = Some (rerender h2)).
  { rewrite Hh3. unfold commit. simpl. by rewrite (render_of_hooks w2 h2 Hh2). }
  destruct (_setUser_spec None w3 _ Hh3')
    as (w4 & h4 & Hset4 & Hh4 & Hu4 & Hn4 & Hc4 & Hp4 & Hs4).
  exists p1, w1, w2, p2, w3, w4.
  split; [exact Hlogin|]. split; [rewrite Hful1; exact Hset|].
  split; [rewrite Hlog; exact Hlogout|]. split; [exact Haw|].
  split; [rewrite Hful2; exact Hset4|].
  split; [unfold user_slot; rewrite Hh4; simpl; by rewrite Hu4|].
  split.
  { rewrite Hn4, Hn3. unfold commit. simpl. rewrite Hn2, Hw1. simpl.
    by rewrite <- app_assoc. }
  split.
  { rewrite Hc4, Hc3. unfold commit. simpl. rewrite Hc2, Hw1. simpl.
    by rewrite <- app_assoc. }
  split; [rewrite Hh4; simpl; rewrite Hp4; simpl; by rewrite Hp2|].
  split; [rewrite Hh4; simpl; rewrite Hs4; simpl; by rewrite Hs2|].
  assert (Hapi4 : API.user (hook_api url (render w4)) = None).
  { simpl. rewrite (render_of_hooks w4 h4 Hh4). exact Hu4. }
  split.
  { simpl. rewrite (render_of_hooks w4 h4 Hh4). simpl. by rewrite Hu4. }
  assert (Hwf3 : wf w3).
  { intros h' Hh'. rewrite Hh3 in Hh'. unfold commit in Hh'. simpl in Hh'.
    injection Hh' as <-. rewrite (render_of_hooks w2 h2 Hh2).
    apply rerender_mounted, (Hwf2 h2 Hh2). }
  assert (Hwf4 : wf w4).
  { replace w4 with (_setUser None w3).2 by (by rewrite Hset4).
    by apply _setUser_keeps_wf. }
  destruct (render_api w4 url Hwf4) as (_ & Hlog4 & _).
  intros w5. rewrite Hlog4, Hapi4. reflexivity.
Qed.

Lemma login_then_logout_witness :
  let w := with_hooks (initial_world None home)
             (Some (after_mount None defaultParam)) in
  exists p1 w1 w2 p2 w3 w4,
    API.loginUser (hook_api site (render w)) "alice@example.com" "secret" None
      (commit w) = (Returned p1, w1) /\
    settle p1 (Fulfilled alice) w1 = (Returned (Some alice), w2) /\
    API.logoutUser (hook_api site (render w2)) (commit w2)
      = (Returned p2, w3) /\
    awaiting p2 = user_logout alice /\
    settle p2 (Fulfilled tt) w3 = (Returned None, w4) /\
    user_slot w4 = Some None /\
    notified w4 = notified w ++ [Some alice; None] /\
    calls w4 =
      calls w ++ [gotrue_login "alice@example.com" "secret" (default true None);
                  user_logout alice] /\
    param <$> hooks w4 = Some (param (after_mount None defaultParam)) /\
    settings <$> hooks w4 = Some (settings (after_mount None defaultParam)) /\
    API.isLoggedIn (hook_api site (render w4)) = false /\
    forall w5,
      API.logoutUser (hook_api site (render w4)) w5
      = (Threw errors.noUserFound, w5).
Proof.
  apply (login_then_logout site
           (with_hooks (initial_world None home)
              (Some (after_mount None defaultParam)))
           (after_mount None defaultParam)
           "alice@example.com" "secret" None alice).
  - reflexivity.
  - repeat split.
Defined.

(** X11. A persisted session is restored without a word to the listener: at
    the mount the user slot is what the backend client had persisted, the
    first render exposes it with its two flags, and [onAuthChange] is not
    called, whatever the router answers and whether it runs or not. *)
Theorem mount_restores_session_silently
    (answer : TokenParam.t) (pending : option (Promise User (option User)))
    (url : Js.jsstring) (enable : bool)
    (currentUser : option User) (loc : Location) :
  exists api pend w',
    useNetlifyIdentity (stub_router answer pending) url enable
      (initial_world currentUser loc) = (Returned (api, pend), w') /\
    API.user api = currentUser /\
    API.isLoggedIn api = truthy currentUser /\
    API.isConfirmedUser api = isConfirmedUser currentUser /\
    user_slot w' = Some currentUser /\
    notified w' = [] /\
    calls w' = [gotrue_settings].
Proof.
  destruct answer as [tk ty err st].
  destruct enable, tk as [[|c rest]|], err as [e|];
    (eexists _, _, _; split; [reflexivity|]; repeat split).
Qed.

(** X8. [authedFetch] throws "no user token found", before anything is
    sent, exactly when the user it holds is absent, has no token object,
    or has the empty string for access token; in every other case it
    sends the request. *)
Theorem genericAuthedFetch_token_precondition
    (user : option User) (method endpoint : string)
    (obj : JsObject) (w : World) :
  let outcome := genericAuthedFetch user method endpoint obj w in
  let lacking :=
    user = None \/
    exists u, user = Some u /\
      (token u = None \/
       exists t, token u = Some t /\ access_token t = "") in
  (lacking <-> outcome = (Threw errors.noTokenFound, w)) /\
  (~ lacking <->
   exists u t p w1,
     user = Some u /\ token u = Some t /\
     outcome = (Returned p, w1) /\
     calls w1 =
       calls w ++ [fetch endpoint (finalObj (access_token t) method obj)]).
Proof.
  intros outcome lacking. subst outcome lacking.
  destruct user as [[i c [[tk]|]]|]; unfold genericAuthedFetch; simpl.
  - destruct (String.eqb_spec tk "") as [->|Hne]; simpl.
    + split; split.
      * reflexivity.
      * intros _. right. eexists. split; [reflexivity|]. right.
        eexists. split; reflexivity.
      * intros Hno. exfalso. apply Hno. right. eexists.
        split; [reflexivity|]. right. eexists. split; reflexivity.
      * intros (u & t & p & w1 & _ & _ & Hrun & _). discriminate Hrun.
    + assert (Hnot : ~ (Some {| id := i; confirmed_at := c;
                                 token := Some {| access_token := tk |} |}
                        = None \/
                        exists u,
                          Some {| id := i; confirmed_at := c;
                                  token := Some {| access_token := tk |} |}
                          = Some u /\
                          (token u = None \/
                           exists t, token u = Some t /\ access_token t = ""))).
      { intros [Hn|(u & [= <-] & [Hn|(t & [= <-] & Ht)])];
          [discriminate Hn | discriminate Hn | contradiction]. }
      split; split.
      * intros Hl. contradiction.
      * unfold bind, ret, call. simpl. discriminate.
      * intros _. eexists _, _, _, _. split; [reflexivity|].
        split; [reflexivity|]. split; reflexivity.
      * intros _. exact Hnot.
  - split; split.
    + reflexivity.
    + intros _. right. eexists. split; [reflexivity|]. by left.
    + intros Hno. exfalso. apply Hno. right. eexists.
      split; [reflexivity|]. by left.
    + intros (u & t & p & w1 & [= <-] & Ht & _). discriminate Ht.
  - split; split.
    + reflexivity.
    + intros _. by left.
    + intros Hno. exfalso. apply Hno. by left.
    + intros (u & t & p & w1 & Hu & _). discriminate Hu.
Qed.
